(** * Ledger-driven inventory: a shallow embedding of [app.py]

    The FastAPI handlers of [app.py] ([create_item], [get_item_endpoint],
    [receive_inventory], [get_stock_summary], [reserve_inventory],
    [issue_inventory], [update_lot_qc_status]) and their helpers ([get_item],
    [calculate_stock], [get_available_lots]) are embedded as functions over
    the four SQLite tables of [init_db] and the state of the connection
    [get_db] hands out.  The functions of [verify_logic.py] follow in a
    module of their own.

    Modelling conventions.
    - A table is the list of its rows in insertion (rowid) order.
    - [str(uuid.uuid4())] is a supply of fresh identifiers: identifiers are
      natural numbers drawn from the counter [uuid4_next], so primary keys
      never collide.
    - The [REAL] columns and the Python [float]s are binary64 numbers
      ([PrimFloat.float]) with their rounding, their infinities and NaN.
      [Field(gt=0)] lets every positive number through, [inf] included, and
      stops NaN.  SQLite stores NaN as [NULL], which the [NOT NULL] columns
      refuse.  The aggregate [SUM] and Python's [sum] add the numbers in
      table order, starting from [0], each addition rounding once.  (SQLite
      from 3.44 and Python from 3.12 carry a compensation term through the
      sum; they give the same results on the request sequences evaluated
      below, which add two numbers at most or whole numbers, and may differ
      in the last digit of longer sums.)
    - The [timestamp] and [created_at] columns are written but never read by
      any handler; they are left out of the rows.
    - The requests are served one after the other over one connection (the
      thread-local connection of one worker).  The connection remembers
      whether a transaction is in progress and what [rollback] goes back to:
      [BEGIN IMMEDIATE] inside a transaction raises
      [sqlite3.OperationalError], the [sqlite3] module begins a transaction
      on its own before an [INSERT] or [UPDATE] outside of one, and an
      exception that passes a handler without [conn.rollback()] leaves the
      transaction open for the next request.
    - An answer is what the handler function returns or the detail of the
      [HTTPException] it raises; rendering the answer as JSON is not part of
      the model. *)

From Stdlib Require Import ZArith List String Bool Lia Sorted Permutation OrderedTypeEx Floats.
Import ListNotations.
Local Open Scope float_scope.
Set Warnings "-inexact-float".

(** ** Schema *)

Definition uuid := nat.

Inductive QCStatus := APPROVED | QUARANTINE | REJECTED.
Inductive TxnType := RECEIVE | RESERVE | UNRESERVE | ISSUE.
Inductive ReservationStatus := OPEN | ISSUED | CANCELLED.

(** [class ErrorCode], the error codes the handlers spell out as literals
    ([DUPLICATE_ITEM_CODE], [LOT_NOT_FOUND], [DATABASE_ERROR],
    [INTERNAL_ERROR]), the 422 answer FastAPI gives when a request does not
    validate ([Field(gt=0)], [Literal[...]]), and the bare 500 it gives for
    an exception that no handler catches. *)
Inductive ErrorCode :=
| INSUFFICIENT_STOCK
| NO_QC_APPROVED_LOT
| RESERVATION_NOT_FOUND
| ITEM_NOT_FOUND
| DUPLICATE_LOT_CODE
| INVALID_QTY
| RESERVATION_ALREADY_ISSUED
| LOT_NOT_APPROVED
| DUPLICATE_ITEM_CODE
| LOT_NOT_FOUND
| DATABASE_ERROR
| INTERNAL_ERROR
| REQUEST_VALIDATION_ERROR
| UNCAUGHT_EXCEPTION.

Definition QCStatus_eqb (a b : QCStatus) : bool :=
  match a, b with
  | APPROVED, APPROVED | QUARANTINE, QUARANTINE | REJECTED, REJECTED => true
  | _, _ => false
  end.

Definition TxnType_eqb (a b : TxnType) : bool :=
  match a, b with
  | RECEIVE, RECEIVE | RESERVE, RESERVE | UNRESERVE, UNRESERVE | ISSUE, ISSUE => true
  | _, _ => false
  end.

Definition ReservationStatus_eqb (a b : ReservationStatus) : bool :=
  match a, b with
  | OPEN, OPEN | ISSUED, ISSUED | CANCELLED, CANCELLED => true
  | _, _ => false
  end.

(** Table [items]. *)
Record item_row := {
  item_id : uuid;
  item_code : string;
  item_name : string;
  qc_required : bool
}.

(** Table [inventory_lots]. *)
Record lot_row := {
  lot_id : uuid;
  lot_item_id : uuid;
  lot_code : string;
  received_qty : float;
  qc_status : QCStatus
}.

(** Table [inventory_ledger]; [lot_id] and [reservation_id] are nullable. *)
Record ledger_row := {
  led_id : uuid;
  led_item_id : uuid;
  led_lot_id : option uuid;
  txn_type : TxnType;
  led_qty : float;
  led_reservation_id : option uuid
}.

(** Table [reservations]. *)
Record reservation_row := {
  res_id : uuid;
  res_item_id : uuid;
  res_qty : float;
  res_status : ReservationStatus
}.

Record Tables := {
  items : list item_row;
  inventory_lots : list lot_row;
  inventory_ledger : list ledger_row;
  reservations : list reservation_row
}.

(** The database as the connection has it: the tables it reads and writes,
    the tables as they were when the transaction in progress began ([None]
    outside of a transaction, [conn.in_transaction] being [False]), and the
    identifier supply. *)
Record Database := {
  tables :> Tables;
  journal : option Tables;
  uuid4_next : uuid
}.

(** The tables right after [init_db], on a fresh connection. *)
Definition init_db : Database :=
  {| tables := {| items := []; inventory_lots := []; inventory_ledger := [];
                  reservations := [] |};
     journal := None;
     uuid4_next := O |}.

(** [conn.in_transaction] *)
Definition in_transaction (db : Database) : bool :=
  match journal db with Some _ => true | None => false end.

(** ** Python code over the connection *)

Inductive sqlite_constraint :=
| UNIQUE_items_code
| UNIQUE_lots_lot_code
| NOT_NULL_qty.

(** The exceptions raised in [app.py] and [verify_logic.py]. *)
Inductive exn :=
| HTTPException (detail : ErrorCode)
| IntegrityError (c : sqlite_constraint)
| OperationalError
| ValueError (msg : ErrorCode)
| TypeError.

(** A piece of Python code: it raises or returns, and either way leaves the
    connection in some state. *)
Definition Py (A : Type) : Type := Database -> (exn + A) * Database.

Definition ret {A} (a : A) : Py A := fun db => (inr a, db).

Definition bind {A B} (m : Py A) (k : A -> Py B) : Py B :=
  fun db => match m db with
            | (inl e, db') => (inl e, db')
            | (inr a, db') => k a db'
            end.

Definition raise {A} (e : exn) : Py A := fun db => (inl e, db).

Definition query {A} (q : Tables -> A) : Py A := fun db => (inr (q db), db).

Notation "x <- m ;; k" := (bind m (fun x => k))
  (at level 61, m at next level, right associativity).
Notation "m ;;; k" := (bind m (fun _ => k))
  (at level 61, right associativity).

(** [try: m except ... as e: h e] *)
Definition try_except {A} (m : Py A) (h : exn -> Py A) : Py A :=
  fun db => match m db with
            | (inl e, db') => h e db'
            | r => r
            end.

Definition set_tables (t : Tables) (db : Database) : Database :=
  {| tables := t; journal := journal db; uuid4_next := uuid4_next db |}.

Definition set_journal (j : option Tables) (db : Database) : Database :=
  {| tables := tables db; journal := j; uuid4_next := uuid4_next db |}.

Definition uuid4 : Py uuid :=
  fun db => (inr (uuid4_next db),
             {| tables := tables db; journal := journal db;
                uuid4_next := S (uuid4_next db) |}).

(** [cursor.execute("BEGIN IMMEDIATE")] *)
Definition begin_immediate : Py unit :=
  fun db => match journal db with
            | Some _ => (inl OperationalError, db)
            | None => (inr tt, set_journal (Some (tables db)) db)
            end.

(** [conn.commit()] *)
Definition commit : Py unit :=
  fun db => (inr tt, set_journal None db).

(** [conn.rollback()] *)
Definition rollback : Py unit :=
  fun db => (inr tt,
             match journal db with
             | Some t => set_journal None (set_tables t db)
             | None => db
             end).

(** [cursor.execute] of an [INSERT] or [UPDATE]: the [sqlite3] module begins
    a transaction first when none is in progress; a statement that violates
    a constraint writes nothing and raises [sqlite3.IntegrityError]. *)
Definition execute (stmt : Tables -> sqlite_constraint + Tables) : Py unit :=
  fun db =>
    let db := match journal db with
              | Some _ => db
              | None => set_journal (Some (tables db)) db
              end in
    match stmt db with
    | inl c => (inl (IntegrityError c), db)
    | inr t => (inr tt, set_tables t db)
    end.

(** ** Statements *)

(** [INSERT INTO items]; [code] is [UNIQUE]. *)
Definition insert_item (r : item_row) (t : Tables) : sqlite_constraint + Tables :=
  if existsb (fun i => String.eqb (item_code i) (item_code r)) (items t)
  then inl UNIQUE_items_code
  else inr {| items := items t ++ [r]; inventory_lots := inventory_lots t;
              inventory_ledger := inventory_ledger t;
              reservations := reservations t |}.

(** [INSERT INTO inventory_lots]; [lot_code] is [UNIQUE], [received_qty] is
    [NOT NULL]. *)
Definition insert_lot (r : lot_row) (t : Tables) : sqlite_constraint + Tables :=
  if is_nan (received_qty r) then inl NOT_NULL_qty
  else if existsb (fun l => String.eqb (lot_code l) (lot_code r)) (inventory_lots t)
  then inl UNIQUE_lots_lot_code
  else inr {| items := items t; inventory_lots := inventory_lots t ++ [r];
              inventory_ledger := inventory_ledger t;
              reservations := reservations t |}.

(** [INSERT INTO inventory_ledger]; [qty] is [NOT NULL]. *)
Definition insert_ledger (r : ledger_row) (t : Tables) : sqlite_constraint + Tables :=
  if is_nan (led_qty r) then inl NOT_NULL_qty
  else inr {| items := items t; inventory_lots := inventory_lots t;
              inventory_ledger := inventory_ledger t ++ [r];
              reservations := reservations t |}.

(** [INSERT INTO reservations]; [qty] is [NOT NULL]. *)
Definition insert_reservation (r : reservation_row) (t : Tables)
  : sqlite_constraint + Tables :=
  if is_nan (res_qty r) then inl NOT_NULL_qty
  else inr {| items := items t; inventory_lots := inventory_lots t;
              inventory_ledger := inventory_ledger t;
              reservations := reservations t ++ [r] |}.

Definition set_res_status (s : ReservationStatus) (r : reservation_row) : reservation_row :=
  {| res_id := res_id r; res_item_id := res_item_id r; res_qty := res_qty r;
     res_status := s |}.

(** [UPDATE reservations SET status = ? WHERE id = ?] *)
Definition update_reservation_status (rid : uuid) (s : ReservationStatus) (t : Tables)
  : sqlite_constraint + Tables :=
  inr {| items := items t; inventory_lots := inventory_lots t;
         inventory_ledger := inventory_ledger t;
         reservations :=
           map (fun r => if Nat.eqb (res_id r) rid then set_res_status s r else r)
               (reservations t) |}.

Definition set_qc_status (s : QCStatus) (l : lot_row) : lot_row :=
  {| lot_id := lot_id l; lot_item_id := lot_item_id l; lot_code := lot_code l;
     received_qty := received_qty l; qc_status := s |}.

(** [UPDATE inventory_lots SET qc_status = ? WHERE id = ?] *)
Definition update_lot_status (lid : uuid) (s : QCStatus) (t : Tables)
  : sqlite_constraint + Tables :=
  inr {| items := items t;
         inventory_lots :=
           map (fun l => if Nat.eqb (lot_id l) lid then set_qc_status s l else l)
               (inventory_lots t);
         inventory_ledger := inventory_ledger t;
         reservations := reservations t |}.

(** [SELECT * FROM items WHERE id = ?] and [fetchone()]. *)
Definition select_item (id : uuid) (t : Tables) : option item_row :=
  find (fun i => Nat.eqb (item_id i) id) (items t).

(** [SELECT * FROM reservations WHERE id = ?] and [fetchone()]. *)
Definition select_reservation (id : uuid) (t : Tables) : option reservation_row :=
  find (fun r => Nat.eqb (res_id r) id) (reservations t).

(** [SELECT * FROM inventory_lots WHERE id = ?] and [fetchone()]. *)
Definition select_lot (id : uuid) (t : Tables) : option lot_row :=
  find (fun l => Nat.eqb (lot_id l) id) (inventory_lots t).

(** ** Helper functions of [app.py] *)

Definition get_item (id : uuid) : Py item_row :=
  fun db => match select_item id db with
            | None => (inl (HTTPException ITEM_NOT_FOUND), db)
            | Some row => (inr row, db)
            end.

(** [SUM] of SQLite and [sum] of Python: the addends one after the other,
    from [0]. *)
Definition sumF (l : list float) : float := fold_left PrimFloat.add l 0.

(** [SUM(CASE WHEN txn_type = t THEN qty ELSE 0 END)] over ledger rows. *)
Definition sum_case_when (t : TxnType) (rows : list ledger_row) : float :=
  sumF (map (fun led => if TxnType_eqb (txn_type led) t then led_qty led else 0) rows).

Record StockSummary := {
  on_hand : float;
  reserved : float;
  available : float
}.

Definition calculate_stock (t : Tables) (item : uuid) : StockSummary :=
  let rows := filter (fun led => Nat.eqb (led_item_id led) item) (inventory_ledger t) in
  let received := sum_case_when RECEIVE rows in
  let issued := sum_case_when ISSUE rows in
  let on_hand := received - issued in
  let reserved :=
    sumF (map res_qty
              (filter (fun r => Nat.eqb (res_item_id r) item
                                && ReservationStatus_eqb (res_status r) OPEN)
                      (reservations t))) in
  let available := on_hand - reserved in
  {| on_hand := on_hand; reserved := reserved; available := available |}.

(** A row of [get_available_lots]: the selected columns and the [available]
    key the Python loop adds. *)
Record lot_dict := {
  ld_id : uuid;
  ld_lot_code : string;
  ld_received_qty : float;
  ld_qc_status : QCStatus;
  ld_issued_qty : float;
  ld_available : float
}.

(** The aggregate of the [LEFT JOIN ... ON l.id = led.lot_id] for one lot. *)
Definition issued_qty (t : Tables) (l : lot_row) : float :=
  sum_case_when ISSUE
    (filter (fun led => match led_lot_id led with
                        | Some x => Nat.eqb x (lot_id l)
                        | None => false
                        end)
            (inventory_ledger t)).

(** The [WHERE] and [HAVING] clauses. *)
Definition lot_selected (t : Tables) (item : uuid) (l : lot_row) : bool :=
  Nat.eqb (lot_item_id l) item
  && QCStatus_eqb (qc_status l) APPROVED
  && (0 <? received_qty l - issued_qty t l).

(** [ORDER BY l.lot_code ASC]: byte order of the codes. *)
Fixpoint insert_by_lot_code (l : lot_row) (ls : list lot_row) : list lot_row :=
  match ls with
  | [] => [l]
  | h :: t => if String.leb (lot_code l) (lot_code h)
              then l :: ls
              else h :: insert_by_lot_code l t
  end.

Definition order_by_lot_code (ls : list lot_row) : list lot_row :=
  fold_right insert_by_lot_code [] ls.

Definition mk_lot_dict (t : Tables) (l : lot_row) : lot_dict :=
  {| ld_id := lot_id l; ld_lot_code := lot_code l;
     ld_received_qty := received_qty l; ld_qc_status := qc_status l;
     ld_issued_qty := issued_qty t l;
     ld_available := received_qty l - issued_qty t l |}.

Definition get_available_lots (t : Tables) (item : uuid) : list lot_dict :=
  map (mk_lot_dict t)
      (order_by_lot_code (filter (lot_selected t item) (inventory_lots t))).

(** ** Endpoints *)

(** What FastAPI makes of a handler: the value it returns, or the detail of
    the [HTTPException] that left it. *)
Definition Handler (A : Type) : Type := Database -> (ErrorCode + A) * Database.

Definition endpoint {A} (m : Py A) : Handler A :=
  fun db => match m db with
            | (inr a, db') => (inr a, db')
            | (inl (HTTPException d), db') => (inl d, db')
            | (inl _, db') => (inl UNCAUGHT_EXCEPTION, db')
            end.

(** Request validation done by FastAPI before the handler body runs. *)
Definition validate (ok : bool) : Py unit :=
  if ok then ret tt else raise (HTTPException REQUEST_VALIDATION_ERROR).

(** [except HTTPException: raise] followed by
    [except Exception as e: conn.rollback(); raise HTTPException(500, ...)]. *)
Definition reraise_or_internal_error {A} (e : exn) : Py A :=
  match e with
  | HTTPException _ => raise e
  | _ => rollback ;;; raise (HTTPException INTERNAL_ERROR)
  end.

(** [POST /items] *)
Definition create_item (code name : string) (qc : bool) : Handler item_row :=
  endpoint (
    id <- uuid4 ;;
    let row := {| item_id := id; item_code := code; item_name := name;
                  qc_required := qc |} in
    try_except (
      execute (insert_item row) ;;;
      commit)
      (fun e => match e with
                | IntegrityError _ => raise (HTTPException DUPLICATE_ITEM_CODE)
                | _ => raise e
                end) ;;;
    ret row).

(** [GET /items/{item_id}] *)
Definition get_item_endpoint (item : uuid) : Handler item_row :=
  endpoint (get_item item).

Record ReceiveInventoryResponse := {
  rcv_lot_id : uuid;
  rcv_item_id : uuid;
  rcv_lot_code : string;
  rcv_received_qty : float;
  rcv_qc_status : QCStatus
}.

(** [POST /inventory/receive] *)
Definition receive_inventory (item : uuid) (code : string) (qty : float)
  : Handler ReceiveInventoryResponse :=
  endpoint (
    validate (0 <? qty) ;;;
    it <- get_item item ;;
    let status := if qc_required it then QUARANTINE else APPROVED in
    lot <- uuid4 ;;
    ledger <- uuid4 ;;
    try_except (
      begin_immediate ;;;
      execute (insert_lot {| lot_id := lot; lot_item_id := item; lot_code := code;
                             received_qty := qty; qc_status := status |}) ;;;
      execute (insert_ledger {| led_id := ledger; led_item_id := item;
                                led_lot_id := Some lot; txn_type := RECEIVE;
                                led_qty := qty; led_reservation_id := None |}) ;;;
      commit)
      (fun e => match e with
                | IntegrityError c =>
                  rollback ;;;
                  match c with
                  | UNIQUE_lots_lot_code => raise (HTTPException DUPLICATE_LOT_CODE)
                  | _ => raise (HTTPException DATABASE_ERROR)
                  end
                | _ => rollback ;;; raise (HTTPException INTERNAL_ERROR)
                end) ;;;
    ret {| rcv_lot_id := lot; rcv_item_id := item; rcv_lot_code := code;
           rcv_received_qty := qty; rcv_qc_status := status |}).

(** [GET /inventory/summary/{item_id}] *)
Definition get_stock_summary (item : uuid) : Handler StockSummary :=
  endpoint (
    get_item item ;;;
    query (fun t => calculate_stock t item)).

Record ReserveInventoryResponse := {
  rsv_reservation_id : uuid;
  rsv_item_id : uuid;
  rsv_qty : float;
  rsv_status : ReservationStatus
}.

(** [POST /inventory/reserve] *)
Definition reserve_inventory (item : uuid) (qty : float)
  : Handler ReserveInventoryResponse :=
  endpoint (
    validate (0 <? qty) ;;;
    try_except (
      begin_immediate ;;;
      get_item item ;;;
      summary <- query (fun t => calculate_stock t item) ;;
      if available summary <? qty
      then rollback ;;; raise (HTTPException INSUFFICIENT_STOCK)
      else
        lots <- query (fun t => get_available_lots t item) ;;
        match lots with
        | [] => rollback ;;; raise (HTTPException NO_QC_APPROVED_LOT)
        | _ :: _ =>
          reservation <- uuid4 ;;
          execute (insert_reservation {| res_id := reservation; res_item_id := item;
                                         res_qty := qty; res_status := OPEN |}) ;;;
          ledger <- uuid4 ;;
          execute (insert_ledger {| led_id := ledger; led_item_id := item;
                                    led_lot_id := None; txn_type := RESERVE;
                                    led_qty := qty;
                                    led_reservation_id := Some reservation |}) ;;;
          commit ;;;
          ret {| rsv_reservation_id := reservation; rsv_item_id := item;
                 rsv_qty := qty; rsv_status := OPEN |}
        end)
      reraise_or_internal_error).

Record issued_lot := {
  il_lot_id : uuid;
  il_lot_code : string;
  il_qty : float
}.

Record IssueInventoryResponse := {
  iss_reservation_id : uuid;
  iss_item_id : uuid;
  iss_qty : float;
  iss_lots_issued : list issued_lot
}.

(** [min(a, b)] of Python: [b] when [b < a], else [a]. *)
Definition py_min (a b : float) : float := if b <? a then b else a.

(** The [for lot in lots] loop of [issue_inventory]: one [ISSUE] row and one
    [lots_issued] element per visited lot. *)
Fixpoint issue_from_lots (item reservation : uuid) (lots : list lot_dict)
    (remaining_qty : float) (lots_issued : list issued_lot) : Py (list issued_lot) :=
  match lots with
  | [] => ret lots_issued
  | lot :: rest =>
    if remaining_qty <=? 0 then ret lots_issued
    else
      let qty_from_lot := py_min (ld_available lot) remaining_qty in
      ledger <- uuid4 ;;
      execute (insert_ledger {| led_id := ledger; led_item_id := item;
                                led_lot_id := Some (ld_id lot); txn_type := ISSUE;
                                led_qty := qty_from_lot;
                                led_reservation_id := Some reservation |}) ;;;
      issue_from_lots item reservation rest (remaining_qty - qty_from_lot)
        (lots_issued ++ [{| il_lot_id := ld_id lot;
                            il_lot_code := ld_lot_code lot;
                            il_qty := qty_from_lot |}])
  end.

(** [POST /inventory/issue] *)
Definition issue_inventory (reservation_id : uuid)
  : Handler IssueInventoryResponse :=
  endpoint (
    try_except (
      begin_immediate ;;;
      reservation_row <- query (select_reservation reservation_id) ;;
      match reservation_row with
      | None => rollback ;;; raise (HTTPException RESERVATION_NOT_FOUND)
      | Some reservation =>
        if negb (ReservationStatus_eqb (res_status reservation) OPEN)
        then rollback ;;; raise (HTTPException RESERVATION_ALREADY_ISSUED)
        else
          let item := res_item_id reservation in
          let qty_to_issue := res_qty reservation in
          lots <- query (fun t => get_available_lots t item) ;;
          match lots with
          | [] => rollback ;;; raise (HTTPException NO_QC_APPROVED_LOT)
          | _ :: _ =>
            let total_available := sumF (map ld_available lots) in
            if total_available <? qty_to_issue
            then rollback ;;; raise (HTTPException INSUFFICIENT_STOCK)
            else
              lots_issued <- issue_from_lots item reservation_id lots qty_to_issue [] ;;
              execute (update_reservation_status reservation_id ISSUED) ;;;
              ledger <- uuid4 ;;
              execute (insert_ledger {| led_id := ledger; led_item_id := item;
                                        led_lot_id := None; txn_type := UNRESERVE;
                                        led_qty := qty_to_issue;
                                        led_reservation_id := Some reservation_id |}) ;;;
              commit ;;;
              ret {| iss_reservation_id := reservation_id; iss_item_id := item;
                     iss_qty := qty_to_issue; iss_lots_issued := lots_issued |}
          end
      end)
      reraise_or_internal_error).

(** [PATCH /inventory/lots/{lot_id}/qc-status], with
    [qc_status: Literal["APPROVED", "REJECTED"]]. *)
Definition update_lot_qc_status (lot : uuid) (status : QCStatus)
  : Handler (uuid * QCStatus) :=
  endpoint (
    validate (negb (QCStatus_eqb status QUARANTINE)) ;;;
    try_except (
      begin_immediate ;;;
      row <- query (select_lot lot) ;;
      match row with
      | None => raise (HTTPException LOT_NOT_FOUND)
      | Some _ =>
        execute (update_lot_status lot status) ;;;
        commit ;;;
        ret (lot, status)
      end)
      reraise_or_internal_error).

(** ** Request sequences *)

Inductive Request :=
| CreateItem (code name : string) (qc : bool)
| GetItem (item : uuid)
| ReceiveInventory (item : uuid) (code : string) (qty : float)
| GetStockSummary (item : uuid)
| ReserveInventory (item : uuid) (qty : float)
| IssueInventory (reservation : uuid)
| UpdateLotQcStatus (lot : uuid) (status : QCStatus).

Inductive Response :=
| ItemResp (r : item_row)
| ReceiveResp (r : ReceiveInventoryResponse)
| SummaryResp (r : StockSummary)
| ReserveResp (r : ReserveInventoryResponse)
| IssueResp (r : IssueInventoryResponse)
| QcResp (r : uuid * QCStatus).

Definition answer {A} (wrap : A -> Response) (r : (ErrorCode + A) * Database)
  : (ErrorCode + Response) * Database :=
  (match fst r with inl e => inl e | inr a => inr (wrap a) end, snd r).

Definition handle (rq : Request) (db : Database) : (ErrorCode + Response) * Database :=
  match rq with
  | CreateItem code name qc => answer ItemResp (create_item code name qc db)
  | GetItem item => answer ItemResp (get_item_endpoint item db)
  | ReceiveInventory item code qty => answer ReceiveResp (receive_inventory item code qty db)
  | GetStockSummary item => answer SummaryResp (get_stock_summary item db)
  | ReserveInventory item qty => answer ReserveResp (reserve_inventory item qty db)
  | IssueInventory r => answer IssueResp (issue_inventory r db)
  | UpdateLotQcStatus lot st => answer QcResp (update_lot_qc_status lot st db)
  end.

(** The connection after serving the requests one after the other. *)
Fixpoint run (rqs : list Request) (db : Database) : Database :=
  match rqs with
  | [] => db
  | rq :: rest => run rest (snd (handle rq db))
  end.

(** The answers given while serving the requests. *)
Fixpoint answers (rqs : list Request) (db : Database) : list (ErrorCode + Response) :=
  match rqs with
  | [] => []
  | rq :: rest => fst (handle rq db) :: answers rest (snd (handle rq db))
  end.

(** ** The functions of [verify_logic.py]

    The script works on the same four tables through its own, plainer
    functions: no request validation, no [HTTPException], no [BEGIN
    IMMEDIATE] and no [rollback]; errors are Python exceptions that nothing
    catches.  [calculate_stock] is the function of [app.py] word for word,
    and the lot query of [issue_inventory] is the one of [get_available_lots]
    without the [qc_status] column. *)
Module VerifyLogic.

(** [receive_inventory(conn, item_id, lot_code, qty)]: [dict(cursor.fetchone())]
    raises [TypeError] when the item is missing. *)
Definition receive_inventory (item : uuid) (code : string) (qty : float)
  : Py (uuid * QCStatus) :=
  row <- query (select_item item) ;;
  match row with
  | None => raise TypeError
  | Some it =>
    let status := if qc_required it then QUARANTINE else APPROVED in
    lot <- uuid4 ;;
    ledger <- uuid4 ;;
    execute (insert_lot {| lot_id := lot; lot_item_id := item; lot_code := code;
                           received_qty := qty; qc_status := status |}) ;;;
    execute (insert_ledger {| led_id := ledger; led_item_id := item;
                              led_lot_id := Some lot; txn_type := RECEIVE;
                              led_qty := qty; led_reservation_id := None |}) ;;;
    commit ;;;
    ret (lot, status)
  end.

(** [SELECT COUNT( * ) ... WHERE item_id = ? AND qc_status = 'APPROVED'] *)
Definition count_approved_lots (t : Tables) (item : uuid) : nat :=
  List.length
    (filter (fun l => Nat.eqb (lot_item_id l) item
                      && QCStatus_eqb (qc_status l) APPROVED)
            (inventory_lots t)).

(** [reserve_inventory(conn, item_id, qty)] *)
Definition reserve_inventory (item : uuid) (qty : float) : Py uuid :=
  summary <- query (fun t => calculate_stock t item) ;;
  if available summary <? qty
  then raise (ValueError INSUFFICIENT_STOCK)
  else
    count <- query (fun t => count_approved_lots t item) ;;
    if Nat.eqb count 0
    then raise (ValueError NO_QC_APPROVED_LOT)
    else
      reservation <- uuid4 ;;
      execute (insert_reservation {| res_id := reservation; res_item_id := item;
                                     res_qty := qty; res_status := OPEN |}) ;;;
      ledger <- uuid4 ;;
      execute (insert_ledger {| led_id := ledger; led_item_id := item;
                                led_lot_id := None; txn_type := RESERVE;
                                led_qty := qty;
                                led_reservation_id := Some reservation |}) ;;;
      commit ;;;
      ret reservation.

(** The [for lot in lots] loop of [issue_inventory]; [lots_issued] holds
    [lot_code] and [qty]. *)
Fixpoint issue_loop (item reservation : uuid) (lots : list lot_dict)
    (remaining_qty : float) (lots_issued : list (string * float))
  : Py (list (string * float)) :=
  match lots with
  | [] => ret lots_issued
  | lot :: rest =>
    if remaining_qty <=? 0 then ret lots_issued
    else
      let qty_from_lot := py_min (ld_available lot) remaining_qty in
      ledger <- uuid4 ;;
      execute (insert_ledger {| led_id := ledger; led_item_id := item;
                                led_lot_id := Some (ld_id lot); txn_type := ISSUE;
                                led_qty := qty_from_lot;
                                led_reservation_id := Some reservation |}) ;;;
      issue_loop item reservation rest (remaining_qty - qty_from_lot)
        (lots_issued ++ [(ld_lot_code lot, qty_from_lot)])
  end.

(** [issue_inventory(conn, reservation_id)] *)
Definition issue_inventory (reservation_id : uuid) : Py (list (string * float)) :=
  reservation_row <- query (select_reservation reservation_id) ;;
  match reservation_row with
  | None => raise (ValueError RESERVATION_NOT_FOUND)
  | Some reservation =>
    if negb (ReservationStatus_eqb (res_status reservation) OPEN)
    then raise (ValueError RESERVATION_ALREADY_ISSUED)
    else
      let item := res_item_id reservation in
      let qty_to_issue := res_qty reservation in
      lots <- query (fun t => get_available_lots t item) ;;
      match lots with
      | [] => raise (ValueError NO_QC_APPROVED_LOT)
      | _ :: _ =>
        let total_available := sumF (map ld_available lots) in
        if total_available <? qty_to_issue
        then raise (ValueError INSUFFICIENT_STOCK)
        else
          lots_issued <- issue_loop item reservation_id lots qty_to_issue [] ;;
          execute (update_reservation_status reservation_id ISSUED) ;;;
          ledger <- uuid4 ;;
          execute (insert_ledger {| led_id := ledger; led_item_id := item;
                                    led_lot_id := None; txn_type := UNRESERVE;
                                    led_qty := qty_to_issue;
                                    led_reservation_id := Some reservation_id |}) ;;;
          commit ;;;
          ret lots_issued
      end
  end.

End VerifyLogic.

(** How an answer of [app.py] reads as an outcome of the script: the error
    code becomes the message of a [ValueError]. *)
Definition as_script_outcome {A B} (f : A -> B) (r : (ErrorCode + A) * Database)
  : (exn + B) * Database :=
  (match fst r with
   | inl e => inl (ValueError e)
   | inr a => inr (f a)
   end, snd r).

(** ** Views used by the statements *)

(** A binary64 number that carries no minus sign: [+0], a positive number,
    [+inf], or NaN. *)
Definition unsigned (x : float) : Prop :=
  match Prim2SF x with
  | S754_zero s | S754_infinity s | S754_finite s _ _ => s = false
  | S754_nan => True
  end.

(** No uncommitted write is pending on the connection: outside of a
    transaction, or in one that has written nothing so far. *)
Definition quiescent (db : Database) : Prop :=
  match journal db with
  | Some t => t = tables db
  | None => True
  end.

(** The tables with one more item, lot, ledger row or reservation. *)
Definition add_item (r : item_row) (t : Tables) : Tables :=
  {| items := items t ++ [r]; inventory_lots := inventory_lots t;
     inventory_ledger := inventory_ledger t; reservations := reservations t |}.

Definition add_lot (l : lot_row) (e : ledger_row) (t : Tables) : Tables :=
  {| items := items t; inventory_lots := inventory_lots t ++ [l];
     inventory_ledger := inventory_ledger t ++ [e];
     reservations := reservations t |}.

Definition add_reservation (r : reservation_row) (e : ledger_row) (t : Tables)
  : Tables :=
  {| items := items t; inventory_lots := inventory_lots t;
     inventory_ledger := inventory_ledger t ++ [e];
     reservations := reservations t ++ [r] |}.

Definition add_ledger (rows : list ledger_row) (t : Tables) : Tables :=
  {| items := items t; inventory_lots := inventory_lots t;
     inventory_ledger := inventory_ledger t ++ rows;
     reservations := reservations t |}.

(** What the loop of [issue_inventory] hands out, without the ledger writes:
    the [lots_issued] list for a lot sequence and a requested quantity. *)
Fixpoint allocate (lots : list lot_dict) (remaining_qty : float) : list issued_lot :=
  match lots with
  | [] => []
  | lot :: rest =>
    if remaining_qty <=? 0 then []
    else
      let qty_from_lot := py_min (ld_available lot) remaining_qty in
      {| il_lot_id := ld_id lot; il_lot_code := ld_lot_code lot;
         il_qty := qty_from_lot |}
        :: allocate rest (remaining_qty - qty_from_lot)
  end.

(** The [ISSUE] rows written for a [lots_issued] list, identifiers drawn
    from [n] on. *)
Fixpoint issue_rows (item reservation : uuid) (n : uuid) (ils : list issued_lot)
  : list ledger_row :=
  match ils with
  | [] => []
  | il :: rest =>
    {| led_id := n; led_item_id := item; led_lot_id := Some (il_lot_id il);
       txn_type := ISSUE; led_qty := il_qty il;
       led_reservation_id := Some reservation |}
      :: issue_rows item reservation (S n) rest
  end.

Definition close_reservation (rid : uuid) (x : reservation_row) : reservation_row :=
  if Nat.eqb (res_id x) rid then set_res_status ISSUED x else x.

(** The tables after a successful issue of reservation [r]: the [ISSUE]
    rows of the allocation, the reservation closed, the [UNRESERVE] row. *)
Definition issued_tables (rid : uuid) (r : reservation_row) (n : uuid) (t : Tables)
  : Tables :=
  let given := allocate (get_available_lots t (res_item_id r)) (res_qty r) in
  {| items := items t; inventory_lots := inventory_lots t;
     inventory_ledger :=
       inventory_ledger t
       ++ issue_rows (res_item_id r) rid n given
       ++ [{| led_id := (List.length given + n)%nat;
              led_item_id := res_item_id r; led_lot_id := None;
              txn_type := UNRESERVE; led_qty := res_qty r;
              led_reservation_id := Some rid |}];
     reservations := map (close_reservation rid) (reservations t) |}.

Arguments calculate_stock : simpl never.
Arguments get_available_lots : simpl never.
Arguments issued_qty : simpl never.

(** The selected lots of an item as they were created (table order). *)
Definition lots_in_creation_order (t : Tables) (item : uuid) : list lot_row :=
  filter (lot_selected t item) (inventory_lots t).

Definition before {A} (x y : A) (l : list A) : Prop :=
  exists l1 l2 l3, l = l1 ++ x :: l2 ++ y :: l3.

(** The ordering the specification asks for: a lot created earlier is
    allocated from earlier. *)
Definition fifo_by_creation (t : Tables) (item : uuid) : Prop :=
  forall a b,
    before a b (map lot_id (lots_in_creation_order t item)) ->
    before a b (map ld_id (get_available_lots t item)).

Definition code_le (a b : string) : Prop := String.leb a b = true.

Definition lot_code_le (a b : lot_row) : Prop := code_le (lot_code a) (lot_code b).

(** Two lots of one item received in the order "LOT-B", "LOT-A". *)
Definition db_codes_out_of_order : Database :=
  run [CreateItem "RM-003" "Copper Wire" false;
       ReceiveInventory 0%nat "LOT-B" 30;
       ReceiveInventory 0%nat "LOT-A" 40] init_db.


(** Lots A(30), B(40), C(30); 80 are reserved and issued, then 20 more. *)
Definition fifo_scenario : list Request :=
  [CreateItem "RM-003" "Copper Wire" false;
   ReceiveInventory 0%nat "A" 30;
   ReceiveInventory 0%nat "B" 40;
   ReceiveInventory 0%nat "C" 30;
   ReserveInventory 0%nat 80;
   IssueInventory 7%nat;
   ReserveInventory 0%nat 20;
   IssueInventory 13%nat].



(** An item has stock it can be allocated from: an [APPROVED] lot whose
    received quantity exceeds what was issued from it. *)
Definition has_approved_stock (t : Tables) (item : uuid) : Prop :=
  exists l, In l (inventory_lots t)
            /\ lot_item_id l = item
            /\ qc_status l = APPROVED
            /\ (0 <? received_qty l - issued_qty t l) = true.

(** [Σ lot_available] over the [APPROVED] lots of an item. *)
Definition approved_available (t : Tables) (item : uuid) : float :=
  sumF (map (fun l => received_qty l - issued_qty t l)
            (filter (fun l => Nat.eqb (lot_item_id l) item
                              && QCStatus_eqb (qc_status l) APPROVED)
                    (inventory_lots t))).

(** An item with 10 units in an [APPROVED] lot and 100 in [QUARANTINE]. *)
Definition db_mostly_quarantined : Database :=
  run [CreateItem "RM-001" "Steel Sheet" true;
       ReceiveInventory 0%nat "LOT-001" 10;
       ReceiveInventory 0%nat "LOT-002" 100;
       UpdateLotQcStatus 1%nat APPROVED] init_db.

(** An [ISSUE] row for one element of [lots_issued]. *)
Definition issue_row_for (item rid : uuid) (e : ledger_row) (il : issued_lot) : Prop :=
  led_item_id e = item
  /\ led_lot_id e = Some (il_lot_id il)
  /\ txn_type e = ISSUE
  /\ led_qty e = il_qty il
  /\ led_reservation_id e = Some rid.

Definition stock_scenario : list Request :=
  [CreateItem "RM-003" "Copper Wire" false;
   ReceiveInventory 0%nat "LOT-001" 100;
   ReserveInventory 0%nat 30;
   GetStockSummary 0%nat;
   IssueInventory 3%nat;
   GetStockSummary 0%nat;
   ReserveInventory 0%nat 1000].

(** 2.9 units received; 0.7 and then 2.2 reserved. *)
Definition rounding_scenario : list Request :=
  [CreateItem "RM-003" "Copper Wire" false;
   ReceiveInventory 0%nat "LOT-001" 2.9;
   ReserveInventory 0%nat 0.7;
   ReserveInventory 0%nat 2.2;
   GetStockSummary 0%nat].

(** A reservation is issued; a QC decision on a lot that does not exist
    follows; the reservation is issued again, twice. *)
Definition reissue_scenario : list Request :=
  [CreateItem "RM-003" "Copper Wire" false;
   ReceiveInventory 0%nat "LOT-001" 100;
   ReserveInventory 0%nat 30;
   IssueInventory 3%nat;
   UpdateLotQcStatus 99%nat APPROVED;
   IssueInventory 3%nat;
   IssueInventory 3%nat].

Definition is_qc_update (rq : Request) : bool :=
  match rq with UpdateLotQcStatus _ _ => true | _ => false end.

Definition qc_scenario : list Request :=
  [CreateItem "RM-001" "Steel Sheet" true;
   ReceiveInventory 0%nat "LOT-QC-001" 50;
   ReserveInventory 0%nat 10;
   UpdateLotQcStatus 1%nat APPROVED;
   ReserveInventory 0%nat 10].

(** No lot of the item is [APPROVED]. *)
Definition no_approved_lot (t : Tables) (item : uuid) : Prop :=
  forall l, In l (inventory_lots t) -> lot_item_id l = item ->
            qc_status l <> APPROVED.

Definition duplicate_scenario : list Request :=
  [CreateItem "RM-003" "Copper Wire" false;
   CreateItem "PK-001" "Cardboard Box" false;
   ReceiveInventory 0%nat "LOT-DUP-001" 100].

Definition approved_lot_scenario : list Request :=
  [CreateItem "RM-003" "Copper Wire" false;
   ReceiveInventory 0%nat "LOT-001" 100].

(** No [APPROVED] lot of the item has anything left: for each of them
    [received_qty - issued_qty > 0] is false. *)
Definition approved_lots_exhausted (t : Tables) (item : uuid) : Prop :=
  forall l, In l (inventory_lots t) -> lot_item_id l = item ->
            qc_status l = APPROVED ->
            (0 <? received_qty l - issued_qty t l) = false.


(** An exhausted [APPROVED] lot of 10 next to a quarantined lot of 50. *)
Definition exhausted_with_quarantine_scenario : list Request :=
  [CreateItem "RM-001" "Steel Sheet" true;
   ReceiveInventory 0%nat "LOT-001" 10;
   ReceiveInventory 0%nat "LOT-002" 50;
   UpdateLotQcStatus 1%nat APPROVED;
   ReserveInventory 0%nat 10;
   IssueInventory 5%nat].

(** ** The effect of a request *)

(** What serving a request can do to the tables: nothing (every read and
    every refused request), or the writes of the handler the request is
    for. *)
Inductive effect (db db' : Database) : Request -> Prop :=
| eff_none (rq : Request) :
    tables db' = tables db ->
    (uuid4_next db <= uuid4_next db')%nat ->
    effect db db' rq
| eff_create_item (row : item_row) :
    existsb (fun i => String.eqb (item_code i) (item_code row)) (items db) = false ->
    item_id row = uuid4_next db ->
    tables db' = add_item row db ->
    uuid4_next db' = S (uuid4_next db) ->
    effect db db' (CreateItem (item_code row) (item_name row) (qc_required row))
| eff_receive (it : item_row) (lot : lot_row) :
    select_item (lot_item_id lot) db = Some it ->
    (0 <? received_qty lot) = true ->
    existsb (fun l => String.eqb (lot_code l) (lot_code lot)) (inventory_lots db)
    = false ->
    lot_id lot = uuid4_next db ->
    qc_status lot = (if qc_required it then QUARANTINE else APPROVED) ->
    tables db'
    = add_lot lot {| led_id := S (uuid4_next db); led_item_id := lot_item_id lot;
                     led_lot_id := Some (lot_id lot); txn_type := RECEIVE;
                     led_qty := received_qty lot; led_reservation_id := None |}
              db ->
    uuid4_next db' = S (S (uuid4_next db)) ->
    effect db db'
      (ReceiveInventory (lot_item_id lot) (lot_code lot) (received_qty lot))
| eff_reserve (it : item_row) (r : reservation_row) :
    select_item (res_item_id r) db = Some it ->
    (0 <? res_qty r) = true ->
    (available (calculate_stock db (res_item_id r)) <? res_qty r) = false ->
    get_available_lots db (res_item_id r) <> [] ->
    res_id r = uuid4_next db ->
    res_status r = OPEN ->
    tables db'
    = add_reservation r {| led_id := S (uuid4_next db); led_item_id := res_item_id r;
                           led_lot_id := None; txn_type := RESERVE;
                           led_qty := res_qty r;
                           led_reservation_id := Some (res_id r) |}
                      db ->
    uuid4_next db' = S (S (uuid4_next db)) ->
    effect db db' (ReserveInventory (res_item_id r) (res_qty r))
| eff_issue (rid : uuid) (r : reservation_row) :
    select_reservation rid db = Some r ->
    res_status r = OPEN ->
    get_available_lots db (res_item_id r) <> [] ->
    (sumF (map ld_available (get_available_lots db (res_item_id r))) <? res_qty r)
    = false ->
    is_nan (res_qty r) = false ->
    tables db' = issued_tables rid r (uuid4_next db) db ->
    uuid4_next db'
    = S (List.length
           (allocate (get_available_lots db (res_item_id r)) (res_qty r))
         + uuid4_next db) ->
    effect db db' (IssueInventory rid)
| eff_qc (lid : uuid) (st : QCStatus) (l : lot_row) :
    select_lot lid db = Some l ->
    st <> QUARANTINE ->
    tables db'
    = {| items := items db;
         inventory_lots :=
           map (fun x => if Nat.eqb (lot_id x) lid then set_qc_status st x else x)
               (inventory_lots db);
         inventory_ledger := inventory_ledger db;
         reservations := reservations db |} ->
    uuid4_next db' = uuid4_next db ->
    effect db db' (UpdateLotQcStatus lid st).

(** ** Keys *)

(** Every identifier in use was drawn before the next one, and the primary
    keys and the two [UNIQUE] columns hold no value twice. *)
Record keys_ok (db : Database) : Prop := {
  item_ids_used :
    Forall (fun i => (item_id i < uuid4_next db)%nat) (items db);
  lot_ids_used :
    Forall (fun l => (lot_id l < uuid4_next db)%nat) (inventory_lots db);
  res_ids_used :
    Forall (fun r => (res_id r < uuid4_next db)%nat) (reservations db);
  ledger_lots_used :
    Forall (fun e => forall l, led_lot_id e = Some l -> (l < uuid4_next db)%nat)
           (inventory_ledger db);
  item_ids_unique : NoDup (map item_id (items db));
  lot_ids_unique : NoDup (map lot_id (inventory_lots db));
  res_ids_unique : NoDup (map res_id (reservations db));
  item_codes_unique : NoDup (map item_code (items db));
  lot_codes_unique : NoDup (map lot_code (inventory_lots db))
}.

(** ** Ledger totals *)

(** [Σ qty] of the ledger rows of one type for an item. *)
Definition ledger_total (t : TxnType) (led : list ledger_row) (item : uuid) : float :=
  sum_case_when t (filter (fun e => Nat.eqb (led_item_id e) item) led).

(** [Σ qty] of the ledger rows of one type for a lot. *)
Definition lot_total (t : TxnType) (led : list ledger_row) (lot : uuid) : float :=
  sum_case_when t
    (filter (fun e => match led_lot_id e with
                      | Some x => Nat.eqb x lot
                      | None => false
                      end) led).

(** [Σ received_qty] of the lots of an item. *)
Definition lots_received (lots : list lot_row) (item : uuid) : float :=
  sumF (map received_qty (filter (fun l => Nat.eqb (lot_item_id l) item) lots)).



(** The ledger and the lot table agree on what was received, every quantity
    on record is positive, and no reservation is cancelled. *)
Record books_ok (db : Database) : Prop := {
  lot_received_once :
    Forall (fun l => lot_total RECEIVE (inventory_ledger db) (lot_id l)
                     = received_qty l) (inventory_lots db);
  item_received_lots :
    forall i, ledger_total RECEIVE (inventory_ledger db) i
              = lots_received (inventory_lots db) i;
  ledger_positive :
    Forall (fun e => (0 <? led_qty e) = true) (inventory_ledger db);
  lots_positive :
    Forall (fun l => (0 <? received_qty l) = true) (inventory_lots db);
  reservations_positive :
    Forall (fun r => (0 <? res_qty r) = true) (reservations db);
  no_cancelled :
    Forall (fun r => res_status r <> CANCELLED) (reservations db)
}.

(** ** References between the tables *)

Definition known_item (t : Tables) (item : uuid) : Prop :=
  select_item item t <> None.

(** The lot table has a lot with this identifier, of this item. *)
Definition known_lot (t : Tables) (lot item : uuid) : Prop :=
  exists l, In l (inventory_lots t) /\ lot_id l = lot /\ lot_item_id l = item.

(** The reservation table has a reservation with this identifier, for this
    item. *)
Definition known_reservation (t : Tables) (rid item : uuid) : Prop :=
  exists r, In r (reservations t) /\ res_id r = rid /\ res_item_id r = item.

(** What the [FOREIGN KEY] clauses of [inventory_ledger] ask of a row, and
    that the lot and the reservation it names are of the row's item. *)
Definition row_refs (t : Tables) (e : ledger_row) : Prop :=
  known_item t (led_item_id e)
  /\ (forall lot, led_lot_id e = Some lot -> known_lot t lot (led_item_id e))
  /\ (forall rid, led_reservation_id e = Some rid ->
                  known_reservation t rid (led_item_id e)).

Record refs_ok (db : Database) : Prop := {
  lots_have_items :
    Forall (fun l => known_item db (lot_item_id l)) (inventory_lots db);
  reservations_have_items :
    Forall (fun r => known_item db (res_item_id r)) (reservations db);
  ledger_has_refs : Forall (row_refs db) (inventory_ledger db)
}.

(** The keys and the books together. *)
Definition consistent (db : Database) : Prop := keys_ok db /\ books_ok db.

(** A lot row as a later state may show it: the same row, or the row with a
    status set by a QC decision. *)
Definition lot_evolves (l l' : lot_row) : Prop :=
  l' = l \/ exists st, st <> QUARANTINE /\ l' = set_qc_status st l.

(** A reservation row as a later state may show it: the same row, or the
    row issued. *)
Definition res_evolves (r r' : reservation_row) : Prop :=
  r' = r \/ (res_status r = OPEN /\ r' = set_res_status ISSUED r).

(** ** The trail of a reservation *)

(** The ledger rows of one type tagged with a reservation. *)
Definition tagged_rows (t : TxnType) (led : list ledger_row) (rid : uuid)
  : list ledger_row :=
  filter (fun e => TxnType_eqb (txn_type e) t
                   && match led_reservation_id e with
                      | Some x => Nat.eqb x rid
                      | None => false
                      end) led.

(** One [RESERVE] row for the reserved quantity; once the reservation is
    issued, [ISSUE] rows and one [UNRESERVE] row for the reserved quantity,
    and none of either before. *)
Definition trail (led : list ledger_row) (r : reservation_row) : Prop :=
  map led_qty (tagged_rows RESERVE led (res_id r)) = [res_qty r]
  /\ tagged_rows RECEIVE led (res_id r) = []
  /\ if ReservationStatus_eqb (res_status r) ISSUED
     then map led_qty (tagged_rows UNRESERVE led (res_id r)) = [res_qty r]
          /\ tagged_rows ISSUE led (res_id r) <> []
     else tagged_rows UNRESERVE led (res_id r) = []
          /\ tagged_rows ISSUE led (res_id r) = [].

Record trail_ok (db : Database) : Prop := {
  ledger_reservations_used :
    Forall (fun e => forall rid, led_reservation_id e = Some rid ->
                                 (rid < uuid4_next db)%nat)
           (inventory_ledger db);
  reservation_trail : Forall (trail (inventory_ledger db)) (reservations db)
}.

(** ** Binary64 facts *)

Lemma is_nan_spec x :
  is_nan x = match Prim2SF x with S754_nan => true | _ => false end.
Proof.
  unfold is_nan. rewrite eqb_spec. unfold SFeqb, SFcompare.
  destruct (Prim2SF x) as [s|s| |s m e]; try reflexivity.
  - now destruct s.
  - destruct s; rewrite Z.compare_refl, Pos.compare_cont_refl; reflexivity.
Qed.

Lemma ltb_not_nan x y : (x <? y) = true -> is_nan x = false /\ is_nan y = false.
Proof.
  rewrite ltb_spec, !is_nan_spec. unfold SFltb, SFcompare.
  destruct (Prim2SF x), (Prim2SF y); try discriminate; auto.
Qed.

Lemma pos_unsigned x : (0 <? x) = true -> unsigned x.
Proof.
  unfold unsigned. rewrite ltb_spec. change (Prim2SF 0) with (S754_zero false).
  unfold SFltb, SFcompare.
  destruct (Prim2SF x) as [s|s| |s m e]; try discriminate; auto;
    destruct s; auto; discriminate.
Qed.

Lemma zero_unsigned : unsigned 0.
Proof. reflexivity. Qed.

Lemma binary_round_aux_sign sx mx ex lx :
  match binary_round_aux prec emax sx mx ex lx with
  | S754_zero s | S754_infinity s | S754_finite s _ _ => s = sx
  | S754_nan => True
  end.
Proof.
  unfold binary_round_aux.
  destruct (shr_fexp prec emax mx ex lx) as [mrs' e'].
  destruct (shr_fexp prec emax _ e' loc_Exact) as [mrs'' e''].
  destruct (shr_m mrs''); auto.
  destruct (Z.leb _ _); auto.
Qed.

(** Adding numbers without a minus sign gives a number without one. *)
Lemma add_unsigned x y : unsigned x -> unsigned y -> unsigned (x + y).
Proof.
  unfold unsigned. rewrite add_spec. unfold SF64add.
  destruct (Prim2SF x) as [sx|sx| |sx mx ex], (Prim2SF y) as [sy|sy| |sy my ey];
    intros Hx Hy; subst; cbn; auto.
  unfold binary_normalize.
  generalize (fst (shl_align mx ex (Z.min ex ey))) as a.
  generalize (fst (shl_align my ey (Z.min ex ey))) as b.
  intros b a. cbn. unfold binary_round.
  destruct (shl_align (a + b) _ _) as [mz ez].
  apply (binary_round_aux_sign false).
Qed.

Lemma add_0_r x : unsigned x -> x + 0 = x.
Proof.
  unfold unsigned. intros H. apply Prim2SF_inj. rewrite add_spec.
  change (Prim2SF 0) with (S754_zero false). unfold SF64add.
  destruct (Prim2SF x) as [s|s| |s m e]; subst; reflexivity.
Qed.

Lemma add_0_l x : unsigned x -> 0 + x = x.
Proof.
  unfold unsigned. intros H. apply Prim2SF_inj. rewrite add_spec.
  change (Prim2SF 0) with (S754_zero false). unfold SF64add.
  destruct (Prim2SF x) as [s|s| |s m e]; subst; reflexivity.
Qed.

(** A number that is not [<= 0] and is below some other number is
    positive. *)
Lemma not_le_0_lt x y : (x <=? 0) = false -> (x <? y) = true -> (0 <? x) = true.
Proof.
  rewrite leb_spec, !ltb_spec. change (Prim2SF 0) with (S754_zero false).
  unfold SFleb, SFltb, SFcompare.
  destruct (Prim2SF x) as [s|s| |s m e]; try discriminate;
    destruct s; try discriminate; auto;
    destruct (Prim2SF y) as [s'|s'| |s' m' e']; try discriminate; auto.
Qed.

Lemma py_min_cases a b :
  (b <? a) = true /\ py_min a b = b \/ (b <? a) = false /\ py_min a b = a.
Proof. unfold py_min. destruct (b <? a); auto. Qed.

(** What the issue loop takes from a lot that has something left is a
    positive number. *)
Lemma py_min_positive a b :
  (0 <? a) = true -> (b <=? 0) = false -> (0 <? py_min a b) = true.
Proof.
  intros Ha Hb. destruct (py_min_cases a b) as [[H ->]|[_ ->]]; [|exact Ha].
  exact (not_le_0_lt _ _ Hb H).
Qed.

Lemma positive_not_nan x : (0 <? x) = true -> is_nan x = false.
Proof. intros H. apply (ltb_not_nan _ _ H). Qed.

Lemma sumF_snoc xs x : sumF (xs ++ [x]) = sumF xs + x.
Proof. unfold sumF. now rewrite fold_left_app. Qed.

Lemma fold_add_unsigned xs :
  forall a, unsigned a -> Forall unsigned xs -> unsigned (fold_left PrimFloat.add xs a).
Proof.
  induction xs as [|x xs IH]; intros a Ha Hxs; simpl; [exact Ha|].
  inversion Hxs; subst. apply IH; [now apply add_unsigned|assumption].
Qed.

Lemma sumF_unsigned xs : Forall unsigned xs -> unsigned (sumF xs).
Proof. apply fold_add_unsigned, zero_unsigned. Qed.

Lemma sumF_zeros xs : Forall (fun x => x = 0) xs -> sumF xs = 0.
Proof.
  unfold sumF. induction 1 as [|x xs -> _ IH]; simpl; [reflexivity|].
  change (0 + 0) with 0. exact IH.
Qed.

(** ** Basic facts *)

Lemma QCStatus_eqb_eq a b : QCStatus_eqb a b = true <-> a = b.
Proof. destruct a, b; simpl; split; congruence. Qed.

Lemma ReservationStatus_eqb_eq a b : ReservationStatus_eqb a b = true <-> a = b.
Proof. destruct a, b; simpl; split; congruence. Qed.

Lemma set_journal_same db j : journal db = j -> set_journal j db = db.
Proof. destruct db. unfold set_journal. simpl. now intros ->. Qed.

(** ** The handlers in closed form *)

Lemma create_item_eq code name qc db :
  create_item code name qc db =
  let row := {| item_id := uuid4_next db; item_code := code;
                item_name := name; qc_required := qc |} in
  if existsb (fun i => String.eqb (item_code i) code) (items db)
  then (inl DUPLICATE_ITEM_CODE,
        {| tables := tables db;
           journal := Some (match journal db with
                            | Some t => t
                            | None => tables db
                            end);
           uuid4_next := S (uuid4_next db) |})
  else (inr row,
        {| tables := add_item row db; journal := None;
           uuid4_next := S (uuid4_next db) |}).
Proof.
  unfold create_item, endpoint, bind, try_except, execute, insert_item, commit,
    uuid4, ret, raise, set_journal, set_tables.
  destruct (journal db) as [t|]; simpl;
    destruct (existsb _ _); reflexivity.
Qed.

Lemma get_item_endpoint_eq item db :
  get_item_endpoint item db =
  match select_item item db with
  | None => (inl ITEM_NOT_FOUND, db)
  | Some row => (inr row, db)
  end.
Proof.
  unfold get_item_endpoint, endpoint, get_item.
  destruct (select_item item db); reflexivity.
Qed.

Lemma get_stock_summary_eq item db :
  get_stock_summary item db =
  match select_item item db with
  | None => (inl ITEM_NOT_FOUND, db)
  | Some _ => (inr (calculate_stock db item), db)
  end.
Proof.
  unfold get_stock_summary, endpoint, bind, get_item, query.
  destruct (select_item item db); reflexivity.
Qed.

Lemma receive_inventory_eq item code qty db :
  receive_inventory item code qty db =
  if 0 <? qty then
    match select_item item db with
    | None => (inl ITEM_NOT_FOUND, db)
    | Some it =>
      match journal db with
      | Some t =>
        (inl INTERNAL_ERROR,
         {| tables := t; journal := None; uuid4_next := S (S (uuid4_next db)) |})
      | None =>
        if existsb (fun l => String.eqb (lot_code l) code) (inventory_lots db)
        then (inl DUPLICATE_LOT_CODE,
              {| tables := tables db; journal := None;
                 uuid4_next := S (S (uuid4_next db)) |})
        else
          let status := if qc_required it then QUARANTINE else APPROVED in
          (inr {| rcv_lot_id := uuid4_next db; rcv_item_id := item;
                  rcv_lot_code := code; rcv_received_qty := qty;
                  rcv_qc_status := status |},
           {| tables :=
                add_lot {| lot_id := uuid4_next db; lot_item_id := item;
                           lot_code := code; received_qty := qty;
                           qc_status := status |}
                        {| led_id := S (uuid4_next db); led_item_id := item;
                           led_lot_id := Some (uuid4_next db); txn_type := RECEIVE;
                           led_qty := qty; led_reservation_id := None |} db;
              journal := None;
              uuid4_next := S (S (uuid4_next db)) |})
      end
    end
  else (inl REQUEST_VALIDATION_ERROR, db).
Proof.
  unfold receive_inventory, endpoint, bind, validate, get_item, try_except,
    begin_immediate, execute, insert_lot, insert_ledger, commit, rollback,
    uuid4, ret, raise, set_journal, set_tables.
  destruct (0 <? qty) eqn:Hq; [|reflexivity].
  pose proof (positive_not_nan _ Hq) as Hn.
  destruct (select_item item db) as [it|]; [|reflexivity].
  simpl. destruct (journal db) as [t|] eqn:J; simpl; rewrite ?J; [reflexivity|].
  simpl. rewrite Hn.
  destruct (existsb _ _); [reflexivity|]. simpl. rewrite ?Hn. reflexivity.
Qed.

Lemma reserve_inventory_eq item qty db :
  reserve_inventory item qty db =
  if 0 <? qty then
    match journal db with
    | Some t =>
      (inl INTERNAL_ERROR,
       {| tables := t; journal := None; uuid4_next := uuid4_next db |})
    | None =>
      match select_item item db with
      | None => (inl ITEM_NOT_FOUND, set_journal (Some (tables db)) db)
      | Some _ =>
        if available (calculate_stock db item) <? qty
        then (inl INSUFFICIENT_STOCK, set_journal None db)
        else
          match get_available_lots db item with
          | [] => (inl NO_QC_APPROVED_LOT, set_journal None db)
          | _ :: _ =>
            (inr {| rsv_reservation_id := uuid4_next db; rsv_item_id := item;
                    rsv_qty := qty; rsv_status := OPEN |},
             {| tables :=
                  add_reservation
                    {| res_id := uuid4_next db; res_item_id := item;
                       res_qty := qty; res_status := OPEN |}
                    {| led_id := S (uuid4_next db); led_item_id := item;
                       led_lot_id := None; txn_type := RESERVE; led_qty := qty;
                       led_reservation_id := Some (uuid4_next db) |} db;
                journal := None;
                uuid4_next := S (S (uuid4_next db)) |})
          end
      end
    end
  else (inl REQUEST_VALIDATION_ERROR, db).
Proof.
  unfold reserve_inventory, reraise_or_internal_error, endpoint, bind, validate,
    get_item, try_except, begin_immediate, query, execute,
    insert_reservation, insert_ledger, commit, rollback, uuid4, ret, raise,
    set_journal, set_tables.
  destruct (0 <? qty) eqn:Hq; [|reflexivity].
  pose proof (positive_not_nan _ Hq) as Hn.
  cbn. destruct (journal db) as [t|] eqn:J; cbn; rewrite ?J; [reflexivity|].
  cbn. destruct (select_item item db); [|reflexivity].
  cbn. destruct (available _ <? qty); [reflexivity|].
  cbn. destruct (get_available_lots db item); [reflexivity|].
  cbn. rewrite ?Hn. cbn. rewrite ?Hn. reflexivity.
Qed.

Lemma update_lot_qc_status_eq lot status db :
  update_lot_qc_status lot status db =
  if QCStatus_eqb status QUARANTINE then (inl REQUEST_VALIDATION_ERROR, db)
  else
    match journal db with
    | Some t =>
      (inl INTERNAL_ERROR,
       {| tables := t; journal := None; uuid4_next := uuid4_next db |})
    | None =>
      match select_lot lot db with
      | None => (inl LOT_NOT_FOUND, set_journal (Some (tables db)) db)
      | Some _ =>
        (inr (lot, status),
         {| tables :=
              {| items := items db;
                 inventory_lots :=
                   map (fun l => if Nat.eqb (lot_id l) lot
                                 then set_qc_status status l else l)
                       (inventory_lots db);
                 inventory_ledger := inventory_ledger db;
                 reservations := reservations db |};
            journal := None;
            uuid4_next := uuid4_next db |})
      end
    end.
Proof.
  unfold update_lot_qc_status, reraise_or_internal_error, endpoint, bind,
    validate, try_except, begin_immediate, query, execute,
    update_lot_status, commit, rollback, ret, raise, set_journal, set_tables.
  destruct (QCStatus_eqb status QUARANTINE); [reflexivity|]. simpl.
  destruct (journal db) as [t|] eqn:J; simpl; rewrite ?J; [reflexivity|]. simpl.
  destruct (select_lot lot db); reflexivity.
Qed.

Lemma py_min_not_nan a b : (0 <? a) = true -> is_nan (py_min a b) = false.
Proof.
  intros Ha. destruct (py_min_cases a b) as [[H ->]|[_ ->]].
  - apply (ltb_not_nan _ _ H).
  - now apply positive_not_nan.
Qed.

(** The loop writes exactly the rows of [allocate] and returns its list. *)
Lemma issue_from_lots_spec item rid lots :
  Forall (fun d => (0 <? ld_available d) = true) lots ->
  forall remaining acc db,
    issue_from_lots item rid lots remaining acc db
    = (inr (acc ++ allocate lots remaining),
       {| tables := add_ledger (issue_rows item rid (uuid4_next db)
                                  (allocate lots remaining)) db;
          journal := match allocate lots remaining with
                     | [] => journal db
                     | _ :: _ => Some (match journal db with
                                       | Some t => t
                                       | None => tables db
                                       end)
                     end;
          uuid4_next := (List.length (allocate lots remaining) + uuid4_next db)%nat |}).
Proof.
  induction 1 as [|lot rest Hlot Hrest IH]; intros remaining acc db;
    cbn [issue_from_lots allocate].
  - unfold ret, add_ledger. cbn. rewrite !app_nil_r.
    destruct db as [[a1 a2 a3 a4] j n]; reflexivity.
  - destruct (remaining <=? 0).
    + unfold ret, add_ledger. cbn. rewrite !app_nil_r.
      destruct db as [[a1 a2 a3 a4] j n]; reflexivity.
    + unfold bind at 1. unfold uuid4 at 1. unfold bind at 1.
      unfold execute at 1, insert_ledger at 1.
      cbn [led_qty journal tables uuid4_next].
      rewrite (py_min_not_nan _ _ Hlot).
      cbn [set_tables set_journal journal tables uuid4_next].
      rewrite IH. f_equal.
      * now rewrite <- app_assoc.
      * unfold add_ledger, set_tables, set_journal.
        destruct (journal db) as [t|];
          cbn [tables journal uuid4_next items inventory_lots inventory_ledger
               reservations issue_rows List.length];
          rewrite <- app_assoc, <- plus_n_Sm; cbn [app il_lot_id il_qty];
          destruct (allocate rest _); reflexivity.
Qed.

Lemma verify_issue_loop_spec item rid lots :
  Forall (fun d => (0 <? ld_available d) = true) lots ->
  forall remaining acc db,
    VerifyLogic.issue_loop item rid lots remaining acc db
    = (inr (acc ++ map (fun il => (il_lot_code il, il_qty il))
                       (allocate lots remaining)),
       snd (issue_from_lots item rid lots remaining [] db)).
Proof.
  induction 1 as [|lot rest Hlot Hrest IH]; intros remaining acc db;
    cbn [VerifyLogic.issue_loop issue_from_lots allocate].
  - unfold ret. cbn. now rewrite app_nil_r.
  - destruct (remaining <=? 0).
    + unfold ret. cbn. now rewrite app_nil_r.
    + unfold bind at 1. unfold uuid4 at 1. unfold bind at 1.
      unfold execute at 1, insert_ledger at 1.
      unfold bind at 1. unfold uuid4 at 1. unfold bind at 1.
      unfold execute at 1, insert_ledger at 1.
      cbn [led_qty journal tables uuid4_next].
      rewrite (py_min_not_nan _ _ Hlot).
      rewrite IH. cbn [map]. rewrite <- app_assoc. cbn [app].
      f_equal.
      rewrite !issue_from_lots_spec by assumption. reflexivity.
Qed.

(** ** The lot query *)

Lemma insert_by_lot_code_perm l ls :
  Permutation (insert_by_lot_code l ls) (l :: ls).
Proof.
  induction ls as [|h t IH]; simpl.
  - apply Permutation_refl.
  - destruct (String.leb _ _).
    + apply Permutation_refl.
    + eapply perm_trans; [apply perm_skip, IH | apply perm_swap].
Qed.

Lemma order_by_lot_code_perm ls : Permutation (order_by_lot_code ls) ls.
Proof.
  induction ls as [|l ls IH]; simpl.
  - apply perm_nil.
  - eapply perm_trans; [apply insert_by_lot_code_perm | now apply perm_skip].
Qed.

Lemma order_by_lot_code_In ls l : In l (order_by_lot_code ls) <-> In l ls.
Proof.
  split; apply Permutation_in;
    [apply order_by_lot_code_perm | apply Permutation_sym, order_by_lot_code_perm].
Qed.

(** Every row of [get_available_lots] stems from a selected lot. *)
Lemma get_available_lots_In (t : Tables) item d :
  In d (get_available_lots t item) <->
  exists l, In l (inventory_lots t) /\ lot_selected t item l = true
            /\ d = mk_lot_dict t l.
Proof.
  unfold get_available_lots. rewrite in_map_iff. split.
  - intros (l & <- & Hin). apply order_by_lot_code_In, filter_In in Hin.
    exists l. tauto.
  - intros (l & Hin & Hsel & ->). exists l. split; [reflexivity|].
    apply order_by_lot_code_In, filter_In. tauto.
Qed.

Lemma get_available_lots_positive (t : Tables) item :
  Forall (fun d => (0 <? ld_available d) = true) (get_available_lots t item).
Proof.
  apply Forall_forall. intros d Hd.
  apply get_available_lots_In in Hd. destruct Hd as (l & _ & Hsel & ->).
  unfold lot_selected in Hsel. apply andb_true_iff in Hsel. destruct Hsel as [_ H].
  exact H.
Qed.

Lemma get_available_lots_nil (t : Tables) item :
  get_available_lots t item = [] <->
  forall l, In l (inventory_lots t) -> lot_selected t item l = false.
Proof.
  split.
  - intros E l Hin. destruct (lot_selected t item l) eqn:Hsel; [|reflexivity].
    assert (In (mk_lot_dict t l) (get_available_lots t item))
      by (apply get_available_lots_In; eauto).
    rewrite E in H. contradiction.
  - intros H. destruct (get_available_lots t item) as [|d ds] eqn:E; [reflexivity|].
    assert (Hd : In d (get_available_lots t item)) by (rewrite E; now left).
    apply get_available_lots_In in Hd. destruct Hd as (l & Hin & Hsel & _).
    rewrite (H l Hin) in Hsel. discriminate.
Qed.

(** ** [issue_inventory] in closed form *)

Lemma issue_inventory_eq rid db :
  issue_inventory rid db =
  match journal db with
  | Some t =>
    (inl INTERNAL_ERROR,
     {| tables := t; journal := None; uuid4_next := uuid4_next db |})
  | None =>
    match select_reservation rid db with
    | None => (inl RESERVATION_NOT_FOUND, set_journal None db)
    | Some r =>
      if negb (ReservationStatus_eqb (res_status r) OPEN)
      then (inl RESERVATION_ALREADY_ISSUED, set_journal None db)
      else
        match get_available_lots db (res_item_id r) with
        | [] => (inl NO_QC_APPROVED_LOT, set_journal None db)
        | _ :: _ =>
          if sumF (map ld_available (get_available_lots db (res_item_id r)))
             <? res_qty r
          then (inl INSUFFICIENT_STOCK, set_journal None db)
          else
            let given :=
              allocate (get_available_lots db (res_item_id r)) (res_qty r) in
            if is_nan (res_qty r)
            then (inl INTERNAL_ERROR,
                  {| tables := tables db; journal := None;
                     uuid4_next := S (List.length given + uuid4_next db) |})
            else
              (inr {| iss_reservation_id := rid; iss_item_id := res_item_id r;
                      iss_qty := res_qty r; iss_lots_issued := given |},
               {| tables := issued_tables rid r (uuid4_next db) db;
                  journal := None;
                  uuid4_next := S (List.length given + uuid4_next db) |})
        end
    end
  end.
Proof.
  unfold issue_inventory, reraise_or_internal_error, endpoint, try_except.
  unfold bind at 1. unfold begin_immediate at 1.
  destruct (journal db) as [t|] eqn:J.
  - unfold bind, rollback, raise. cbn. now rewrite J.
  - unfold bind at 1. unfold query at 1.
    cbn [tables set_journal].
    destruct (select_reservation rid db) as [r|].
    2:{ unfold bind, rollback, raise, set_journal, set_tables. reflexivity. }
    destruct (negb _).
    1:{ unfold bind, rollback, raise, set_journal, set_tables. reflexivity. }
    unfold bind at 1. unfold query at 1. cbn [tables set_journal].
    destruct (get_available_lots db (res_item_id r)) as [|d0 ds] eqn:Hlots.
    1:{ unfold bind, rollback, raise, set_journal, set_tables. reflexivity. }
    rewrite <- Hlots.
    assert (Hpos := get_available_lots_positive db (res_item_id r)).
    clear Hlots.
    destruct (_ <? res_qty r).
    1:{ unfold bind, rollback, raise, set_journal, set_tables. reflexivity. }
    unfold bind at 1. rewrite (issue_from_lots_spec _ _ _ Hpos).
    cbn [app].
    unfold bind, execute, update_reservation_status, uuid4, insert_ledger,
      commit, rollback, raise, ret, set_journal, set_tables.
    cbn [journal tables uuid4_next led_qty].
    destruct (allocate _ _) as [|g gs] eqn:Hg;
      cbn [journal tables uuid4_next led_qty];
      destruct (is_nan (res_qty r)); cbn; rewrite ?app_nil_r; try reflexivity.
    + unfold issued_tables. rewrite Hg. reflexivity.
    + unfold issued_tables. rewrite Hg. cbn. rewrite <- app_assoc. reflexivity.
Qed.

(** ** One request, one effect *)

Lemma quiescent_init : quiescent init_db.
Proof. exact I. Qed.

Lemma quiescent_clean db : journal db = None -> quiescent db.
Proof. unfold quiescent. now intros ->. Qed.

(** Serving a request on a connection without pending writes has one of the
    effects above and leaves no pending write behind. *)
Lemma handle_effect rq db :
  quiescent db ->
  effect db (snd (handle rq db)) rq /\ quiescent (snd (handle rq db)).
Proof.
  unfold quiescent. intros Hq.
  destruct rq as [code name qc|item|item code qty|item|item qty|rid|lid st];
    cbn [handle answer snd].
  - rewrite create_item_eq. cbv zeta.
    destruct (existsb _ _) eqn:E; cbn [snd journal tables uuid4_next].
    + split; [apply eff_none; cbn; [reflexivity|lia]|].
      destruct (journal db); [exact Hq|reflexivity].
    + split; [|exact I].
      eapply eff_create_item with
        (row := {| item_id := uuid4_next db; item_code := code;
                   item_name := name; qc_required := qc |});
        try reflexivity. exact E.
  - rewrite get_item_endpoint_eq.
    destruct (select_item item db); cbn [snd]; (split; [|exact Hq]);
      apply eff_none; [reflexivity|lia|reflexivity|lia].
  - rewrite receive_inventory_eq.
    destruct (0 <? qty) eqn:Hpos;
      [|cbn [snd]; split; [apply eff_none; [reflexivity|lia]|exact Hq]].
    destruct (select_item item db) as [it|] eqn:Hit;
      [|cbn [snd]; split; [apply eff_none; [reflexivity|lia]|exact Hq]].
    destruct (journal db) as [t|] eqn:J.
    { cbn [snd journal]. split; [|exact I].
      apply eff_none; cbn; [now symmetry|lia]. }
    destruct (existsb _ _) eqn:E; cbn [snd journal]; (split; [|exact I]).
    + apply eff_none; cbn; [reflexivity|lia].
    + eapply eff_receive with
        (it := it)
        (lot := {| lot_id := uuid4_next db; lot_item_id := item; lot_code := code;
                   received_qty := qty;
                   qc_status := if qc_required it then QUARANTINE else APPROVED |});
        try reflexivity; assumption.
  - rewrite get_stock_summary_eq.
    destruct (select_item item db); cbn [snd]; (split; [|exact Hq]);
      apply eff_none; [reflexivity|lia|reflexivity|lia].
  - rewrite reserve_inventory_eq.
    destruct (0 <? qty) eqn:Hpos;
      [|cbn [snd]; split; [apply eff_none; [reflexivity|lia]|exact Hq]].
    destruct (journal db) as [t|] eqn:J.
    { cbn [snd journal]. split; [|exact I].
      apply eff_none; cbn; [now symmetry|lia]. }
    destruct (select_item item db) as [it|] eqn:Hit.
    2:{ cbn [snd set_journal journal tables]. split; [|reflexivity].
        apply eff_none; cbn; [reflexivity|lia]. }
    destruct (available _ <? qty) eqn:Hav.
    { cbn [snd set_journal journal]. split; [|exact I].
      apply eff_none; cbn; [reflexivity|lia]. }
    destruct (get_available_lots db item) as [|d ds] eqn:Hlots.
    { cbn [snd set_journal journal]. split; [|exact I].
      apply eff_none; cbn; [reflexivity|lia]. }
    cbn [snd journal]. split; [|exact I].
    eapply eff_reserve with
      (it := it)
      (r := {| res_id := uuid4_next db; res_item_id := item; res_qty := qty;
               res_status := OPEN |});
      try reflexivity; try assumption.
    cbn [res_item_id]. rewrite Hlots. discriminate.
  - rewrite issue_inventory_eq.
    destruct (journal db) as [t|] eqn:J.
    { cbn [snd journal]. split; [|exact I].
      apply eff_none; cbn; [now symmetry|lia]. }
    destruct (select_reservation rid db) as [r|] eqn:Hr.
    2:{ cbn [snd set_journal journal]. split; [|exact I].
        apply eff_none; cbn; [reflexivity|lia]. }
    destruct (ReservationStatus_eqb (res_status r) OPEN) eqn:Hst; cbn [negb].
    2:{ cbn [snd set_journal journal]. split; [|exact I].
        apply eff_none; cbn; [reflexivity|lia]. }
    apply ReservationStatus_eqb_eq in Hst.
    destruct (get_available_lots db (res_item_id r)) as [|d ds] eqn:Hlots.
    { cbn [snd set_journal journal]. split; [|exact I].
      apply eff_none; cbn; [reflexivity|lia]. }
    rewrite <- Hlots.
    assert (Hne : get_available_lots db (res_item_id r) <> [])
      by (rewrite Hlots; discriminate).
    clear Hlots.
    destruct (_ <? res_qty r) eqn:Hlt.
    { cbn [snd set_journal journal]. split; [|exact I].
      apply eff_none; cbn; [reflexivity|lia]. }
    cbv zeta. destruct (is_nan (res_qty r)) eqn:Hn; cbn [snd journal];
      (split; [|exact I]).
    + apply eff_none; cbn; [reflexivity|lia].
    + eapply eff_issue with (rid := rid) (r := r); try reflexivity; assumption.
  - rewrite update_lot_qc_status_eq.
    destruct (QCStatus_eqb st QUARANTINE) eqn:Hst;
      [cbn [snd]; split; [apply eff_none; [reflexivity|lia]|exact Hq]|].
    destruct (journal db) as [t|] eqn:J.
    { cbn [snd journal]. split; [|exact I].
      apply eff_none; cbn; [now symmetry|lia]. }
    destruct (select_lot lid db) as [l|] eqn:Hl.
    2:{ cbn [snd set_journal journal tables]. split; [|reflexivity].
        apply eff_none; cbn; [reflexivity|lia]. }
    cbn [snd journal]. split; [|exact I].
    eapply eff_qc with (lid := lid) (st := st) (l := l); try reflexivity.
    + exact Hl.
    + intros ->. discriminate.
Qed.

Lemma run_app rqs1 rqs2 db : run (rqs1 ++ rqs2) db = run rqs2 (run rqs1 db).
Proof. revert db. induction rqs1 as [|rq rqs1 IH]; intros db; simpl; auto. Qed.

Lemma run_snoc rqs rq db : run (rqs ++ [rq]) db = snd (handle rq (run rqs db)).
Proof. now rewrite run_app. Qed.

Lemma quiescent_run rqs : forall db, quiescent db -> quiescent (run rqs db).
Proof.
  induction rqs as [|rq rqs IH]; intros db H; simpl; [exact H|].
  apply IH, handle_effect, H.
Qed.

(** A property of the tables and the identifier supply that every effect
    preserves holds along every run. *)
Section Invariants.

Variable P : Database -> Prop.
Hypothesis P_effect : forall db db' rq, P db -> effect db db' rq -> P db'.

Lemma invariant_run rqs : forall db, quiescent db -> P db -> P (run rqs db).
Proof.
  induction rqs as [|rq rqs IH]; intros db Hq H; simpl; [exact H|].
  destruct (handle_effect rq db Hq) as [He Hq'].
  apply IH; [exact Hq'|]. eapply P_effect; eassumption.
Qed.

End Invariants.

(** ** Keys stay fresh and unique *)

Lemma NoDup_snoc {A} (l : list A) (x : A) :
  NoDup l -> ~ In x l -> NoDup (l ++ [x]).
Proof.
  intros Hl Hx. apply (Permutation_NoDup (Permutation_cons_append l x)).
  now constructor.
Qed.

Lemma used_weaken {A} (f : A -> nat) (n m : nat) (l : list A) :
  (n <= m)%nat ->
  Forall (fun x => (f x < n)%nat) l -> Forall (fun x => (f x < m)%nat) l.
Proof. intros Hnm. apply Forall_impl. intros x Hx. lia. Qed.

Lemma used_not_in {A} (f : A -> nat) (n : nat) (l : list A) :
  Forall (fun x => (f x < n)%nat) l -> ~ In n (map f l).
Proof.
  intros H Hin. apply in_map_iff in Hin. destruct Hin as (x & Hfx & Hx).
  rewrite Forall_forall in H. specialize (H x Hx). lia.
Qed.

Lemma code_not_in {A} (f : A -> string) (c : string) (l : list A) :
  existsb (fun x => String.eqb (f x) c) l = false -> ~ In c (map f l).
Proof.
  intros H Hin. apply in_map_iff in Hin. destruct Hin as (x & Hfx & Hx).
  assert (E : existsb (fun x => String.eqb (f x) c) l = true).
  { apply existsb_exists. exists x. split; [exact Hx|]. now apply String.eqb_eq. }
  congruence.
Qed.

Lemma ledger_lots_weaken (n m : nat) (led : list ledger_row) :
  (n <= m)%nat ->
  Forall (fun e => forall l, led_lot_id e = Some l -> (l < n)%nat) led ->
  Forall (fun e => forall l, led_lot_id e = Some l -> (l < m)%nat) led.
Proof.
  intros Hnm. apply Forall_impl. intros e He l Hl. specialize (He l Hl). lia.
Qed.

(** [allocate] hands out from the lots it was given, and never a quantity
    that is not positive. *)
Lemma allocate_In lots :
  forall q il,
    Forall (fun d => (0 <? ld_available d) = true) lots ->
    In il (allocate lots q) ->
    exists d, In d lots /\ il_lot_id il = ld_id d
              /\ il_lot_code il = ld_lot_code d
              /\ (0 <? il_qty il) = true.
Proof.
  induction lots as [|l lots IH]; intros q il Hpos Hin; cbn [allocate] in Hin.
  - contradiction.
  - inversion Hpos as [|? ? Hl Hrest]; subst.
    destruct (q <=? 0) eqn:E; [contradiction|].
    destruct Hin as [<-|Hin].
    + exists l. cbn. split; [now left|]. repeat split.
      now apply py_min_positive.
    + destruct (IH _ _ Hrest Hin) as (d & Hd & H).
      exists d. split; [now right|exact H].
Qed.

Lemma map_close_res_id rid rs :
  map res_id (map (close_reservation rid) rs) = map res_id rs.
Proof.
  rewrite map_map. apply map_ext. intros r. unfold close_reservation.
  now destruct (Nat.eqb (res_id r) rid).
Qed.

Lemma map_set_qc_lot_id lid st ls :
  map lot_id (map (fun x => if Nat.eqb (lot_id x) lid then set_qc_status st x else x) ls)
  = map lot_id ls.
Proof.
  rewrite map_map. apply map_ext. intros l. now destruct (Nat.eqb (lot_id l) lid).
Qed.

Lemma map_set_qc_lot_code lid st ls :
  map lot_code (map (fun x => if Nat.eqb (lot_id x) lid then set_qc_status st x else x) ls)
  = map lot_code ls.
Proof.
  rewrite map_map. apply map_ext. intros l. now destruct (Nat.eqb (lot_id l) lid).
Qed.

Lemma issue_rows_lots_used item rid given :
  forall n m,
    Forall (fun il => (il_lot_id il < m)%nat) given ->
    Forall (fun e => forall l, led_lot_id e = Some l -> (l < m)%nat)
           (issue_rows item rid n given).
Proof.
  induction given as [|il given IH]; intros n m H; simpl; [constructor|].
  inversion H as [|? ? Hil Hrest]; subst. constructor.
  - simpl. intros l [= <-]. exact Hil.
  - now apply IH.
Qed.

Lemma keys_ok_init : keys_ok init_db.
Proof. constructor; simpl; constructor. Qed.

(** Rewrites the tables of the state after an effect. *)
Ltac after_effect Et :=
  rewrite ?Et;
  cbn [items inventory_lots inventory_ledger reservations
       add_item add_lot add_reservation add_ledger issued_tables].

Lemma keys_ok_effect db db' rq : keys_ok db -> effect db db' rq -> keys_ok db'.
Proof.
  intros [Hi Hl Hr Hg Ni Nl Nr Ci Cl] Heff.
  destruct Heff as
    [rq Et En
    |row Hcode Hid Et En
    |it lot Hit Hq Hcode Hid Hst Et En
    |it r Hit Hq Hav Hne Hid Hst Et En
    |rid r Hsel Hst Hne Hle Hnan Et En
    |lid st l Hsel Hst Et En].
  - constructor; after_effect Et; try assumption.
    + eapply used_weaken; [|exact Hi]; lia.
    + eapply used_weaken; [|exact Hl]; lia.
    + eapply used_weaken; [|exact Hr]; lia.
    + eapply ledger_lots_weaken; [|exact Hg]; lia.
  - constructor; after_effect Et; rewrite ?En, ?map_app; try assumption.
    + apply Forall_app. split; [eapply used_weaken; [|exact Hi]; lia|].
      constructor; [lia|constructor].
    + eapply used_weaken; [|exact Hl]; lia.
    + eapply used_weaken; [|exact Hr]; lia.
    + eapply ledger_lots_weaken; [|exact Hg]; lia.
    + apply NoDup_snoc; [assumption|]. cbn. rewrite Hid. now apply used_not_in.
    + apply NoDup_snoc; [assumption|]. now apply code_not_in.
  - constructor; after_effect Et; rewrite ?En, ?map_app; try assumption.
    + eapply used_weaken; [|exact Hi]; lia.
    + apply Forall_app. split; [eapply used_weaken; [|exact Hl]; lia|].
      constructor; [lia|constructor].
    + eapply used_weaken; [|exact Hr]; lia.
    + apply Forall_app. split; [eapply ledger_lots_weaken; [|exact Hg]; lia|].
      constructor; [|constructor]. simpl. intros x [= <-]. lia.
    + apply NoDup_snoc; [assumption|]. cbn. rewrite Hid. now apply used_not_in.
    + apply NoDup_snoc; [assumption|]. now apply code_not_in.
  - constructor; after_effect Et; rewrite ?En, ?map_app; try assumption.
    + eapply used_weaken; [|exact Hi]; lia.
    + eapply used_weaken; [|exact Hl]; lia.
    + apply Forall_app. split; [eapply used_weaken; [|exact Hr]; lia|].
      constructor; [lia|constructor].
    + apply Forall_app. split; [eapply ledger_lots_weaken; [|exact Hg]; lia|].
      constructor; [|constructor]. simpl. discriminate.
    + apply NoDup_snoc; [assumption|]. cbn. rewrite Hid. now apply used_not_in.
  - constructor; after_effect Et; rewrite ?En, ?map_close_res_id; try assumption.
    + eapply used_weaken; [|exact Hi]; lia.
    + eapply used_weaken; [|exact Hl]; lia.
    + apply Forall_forall. intros x Hx. apply in_map_iff in Hx.
      destruct Hx as (y & <- & Hy). rewrite Forall_forall in Hr.
      specialize (Hr y Hy). unfold close_reservation.
      destruct (Nat.eqb (res_id y) rid); simpl; lia.
    + apply Forall_app. split; [eapply ledger_lots_weaken; [|exact Hg]; lia|].
      apply Forall_app. split; [|constructor; [simpl; discriminate|constructor]].
      apply issue_rows_lots_used. apply Forall_forall. intros il Hil.
      destruct (allocate_In _ _ _ (get_available_lots_positive _ _) Hil)
        as (d & Hd & -> & _).
      apply get_available_lots_In in Hd. destruct Hd as (x & Hx & _ & ->).
      rewrite Forall_forall in Hl. specialize (Hl x Hx). simpl. lia.
  - constructor; after_effect Et;
      rewrite ?En, ?map_set_qc_lot_id, ?map_set_qc_lot_code;
      try assumption.
    apply Forall_forall. intros x Hx. apply in_map_iff in Hx.
    destruct Hx as (y & <- & Hy). rewrite Forall_forall in Hl.
    specialize (Hl y Hy). destruct (Nat.eqb (lot_id y) lid); simpl; lia.
Qed.

Lemma keys_ok_run rqs : forall db, quiescent db -> keys_ok db -> keys_ok (run rqs db).
Proof. apply invariant_run. exact keys_ok_effect. Qed.

(** ** Sums over the ledger *)

Lemma sum_case_when_snoc t rows e :
  sum_case_when t (rows ++ [e])
  = sum_case_when t rows + (if TxnType_eqb (txn_type e) t then led_qty e else 0).
Proof. unfold sum_case_when. rewrite map_app. cbn [map]. apply sumF_snoc. Qed.

(** Rows of another type do not change a total. *)
Lemma sum_case_when_others t rows more :
  unsigned (sum_case_when t rows) ->
  Forall (fun e => TxnType_eqb (txn_type e) t = false) more ->
  sum_case_when t (rows ++ more) = sum_case_when t rows.
Proof.
  intros Hu Hm. revert rows Hu.
  induction Hm as [|e more He _ IH]; intros rows Hu; [now rewrite app_nil_r|].
  change (e :: more) with ([e] ++ more). rewrite app_assoc.
  assert (E : sum_case_when t (rows ++ [e]) = sum_case_when t rows)
    by (rewrite sum_case_when_snoc, He; now apply add_0_r).
  rewrite IH; rewrite E; [reflexivity|exact Hu].
Qed.





Lemma ledger_total_snoc t led e i :
  ledger_total t (led ++ [e]) i
  = if Nat.eqb (led_item_id e) i
    then ledger_total t led i
         + (if TxnType_eqb (txn_type e) t then led_qty e else 0)
    else ledger_total t led i.
Proof.
  unfold ledger_total. rewrite filter_app. cbn [filter].
  destruct (Nat.eqb (led_item_id e) i);
    [apply sum_case_when_snoc|now rewrite app_nil_r].
Qed.

Lemma ledger_total_others t led more i :
  unsigned (ledger_total t led i) ->
  Forall (fun e => TxnType_eqb (txn_type e) t = false) more ->
  ledger_total t (led ++ more) i = ledger_total t led i.
Proof.
  intros Hu Hm. unfold ledger_total. rewrite filter_app.
  apply sum_case_when_others; [exact Hu|].
  apply Forall_forall. intros e He. apply filter_In in He.
  rewrite Forall_forall in Hm. apply Hm, He.
Qed.

Lemma lot_total_others t led more lid :
  unsigned (lot_total t led lid) ->
  Forall (fun e => TxnType_eqb (txn_type e) t = false) more ->
  lot_total t (led ++ more) lid = lot_total t led lid.
Proof.
  intros Hu Hm. unfold lot_total. rewrite filter_app.
  apply sum_case_when_others; [exact Hu|].
  apply Forall_forall. intros e He. apply filter_In in He.
  rewrite Forall_forall in Hm. apply Hm, He.
Qed.

Lemma lot_rows_unused led n :
  Forall (fun e => forall l, led_lot_id e = Some l -> (l < n)%nat) led ->
  filter (fun e => match led_lot_id e with
                   | Some x => Nat.eqb x n
                   | None => false
                   end) led = [].
Proof.
  induction 1 as [|e led He _ IH]; [reflexivity|]. cbn [filter].
  destruct (led_lot_id e) as [x|] eqn:E; [|exact IH].
  specialize (He x eq_refl).
  destruct (Nat.eqb x n) eqn:En; [apply Nat.eqb_eq in En; lia|exact IH].
Qed.

Lemma issue_rows_type item rid given :
  forall n, Forall (fun e => txn_type e = ISSUE) (issue_rows item rid n given).
Proof.
  induction given as [|il given IH]; intros n; simpl; constructor; auto.
Qed.

Lemma lots_received_snoc ls l i :
  lots_received (ls ++ [l]) i
  = if Nat.eqb (lot_item_id l) i then lots_received ls i + received_qty l
    else lots_received ls i.
Proof.
  unfold lots_received. rewrite filter_app. cbn [filter].
  destruct (Nat.eqb (lot_item_id l) i).
  - rewrite map_app. cbn [map]. apply sumF_snoc.
  - now rewrite app_nil_r.
Qed.

Lemma lots_received_set_qc lid st ls i :
  lots_received
    (map (fun x => if Nat.eqb (lot_id x) lid then set_qc_status st x else x) ls) i
  = lots_received ls i.
Proof.
  unfold lots_received. f_equal.
  induction ls as [|l ls IH]; [reflexivity|].
  cbn [map filter].
  assert (E : lot_item_id (if Nat.eqb (lot_id l) lid then set_qc_status st l else l)
              = lot_item_id l /\
              received_qty (if Nat.eqb (lot_id l) lid then set_qc_status st l else l)
              = received_qty l)
    by (destruct (Nat.eqb (lot_id l) lid); split; reflexivity).
  destruct E as [E1 E2]. rewrite E1.
  destruct (Nat.eqb (lot_item_id l) i); cbn [map]; rewrite ?E2, IH; reflexivity.
Qed.

Lemma lots_received_unsigned ls i :
  Forall (fun l => (0 <? received_qty l) = true) ls ->
  unsigned (lots_received ls i).
Proof.
  intros H. apply sumF_unsigned, Forall_map, Forall_forall.
  intros l Hl. apply filter_In in Hl. rewrite Forall_forall in H.
  apply pos_unsigned, H, Hl.
Qed.

(** ** The books *)

Lemma books_ok_init : books_ok init_db.
Proof. constructor; simpl; try constructor; reflexivity. Qed.

Lemma issue_rows_positive item rid (t : Tables) i q n :
  Forall (fun e => (0 <? led_qty e) = true)
         (issue_rows item rid n (allocate (get_available_lots t i) q)).
Proof.
  assert (H : Forall (fun il => (0 <? il_qty il) = true)
                     (allocate (get_available_lots t i) q)).
  { apply Forall_forall. intros il Hil.
    destruct (allocate_In _ _ _ (get_available_lots_positive _ _) Hil)
      as (d & _ & _ & _ & Hp). exact Hp. }
  revert n. induction H as [|il given Hil _ IH]; intros n; simpl; constructor; auto.
Qed.

Lemma books_ok_effect db db' rq :
  keys_ok db -> books_ok db -> effect db db' rq -> books_ok db'.
Proof.
  intros Hk [Hlot Hitem Hled Hlots Hres Hnc] Heff.
  assert (Hlu : forall l, In l (inventory_lots db) ->
                          unsigned (lot_total RECEIVE (inventory_ledger db) (lot_id l))).
  { intros l Hl. rewrite Forall_forall in Hlot, Hlots.
    rewrite (Hlot l Hl). apply pos_unsigned, Hlots, Hl. }
  assert (Hiu : forall i, unsigned (ledger_total RECEIVE (inventory_ledger db) i)).
  { intros i. rewrite Hitem. now apply lots_received_unsigned. }
  destruct Heff as
    [rq Et En
    |row Hcode Hid Et En
    |it lot Hit Hq Hcode Hid Hst Et En
    |it r Hit Hq Hav Hne Hid Hst Et En
    |rid r Hsel Hst Hne Hle Hnan Et En
    |lid st l Hsel Hst Et En].
  - constructor; after_effect Et; assumption.
  - constructor; after_effect Et; assumption.
  - constructor; after_effect Et; try assumption.
    + apply Forall_app. split.
      * apply Forall_forall. intros l Hl.
        unfold lot_total. rewrite filter_app. cbn [filter led_lot_id].
        assert (E : Nat.eqb (lot_id lot) (lot_id l) = false).
        { apply Nat.eqb_neq. destruct Hk as [_ Hl' _ _ _ _ _ _ _].
          rewrite Forall_forall in Hl'. specialize (Hl' l Hl). lia. }
        rewrite E, app_nil_r. rewrite Forall_forall in Hlot. now apply Hlot.
      * constructor; [|constructor].
        unfold lot_total. rewrite filter_app. cbn [filter led_lot_id].
        rewrite Nat.eqb_refl, Hid.
        rewrite (lot_rows_unused _ _ (ledger_lots_used _ Hk)).
        cbn. apply add_0_l. now apply pos_unsigned.
    + intros i. rewrite ledger_total_snoc, lots_received_snoc.
      cbn [led_item_id txn_type led_qty TxnType_eqb].
      destruct (Nat.eqb (lot_item_id lot) i); now rewrite Hitem.
    + apply Forall_app. split; [assumption|]. now repeat constructor.
    + apply Forall_app. split; [assumption|]. now repeat constructor.
  - constructor; after_effect Et; try assumption.
    + revert Hlot. apply Forall_impl. intros l Hl.
      unfold lot_total in *. rewrite filter_app. cbn [filter led_lot_id].
      now rewrite app_nil_r.
    + intros i. rewrite ledger_total_snoc.
      cbn [led_item_id txn_type led_qty TxnType_eqb].
      destruct (Nat.eqb (res_item_id r) i); [|apply Hitem].
      rewrite add_0_r by apply Hiu. apply Hitem.
    + apply Forall_app. split; [assumption|]. now repeat constructor.
    + apply Forall_app. split; [assumption|]. now repeat constructor.
    + apply Forall_app. split; [assumption|]. constructor; [|constructor].
      now rewrite Hst.
  - assert (Hrq : (0 <? res_qty r) = true).
    { unfold select_reservation in Hsel. apply find_some in Hsel.
      rewrite Forall_forall in Hres. apply Hres, Hsel. }
    assert (Hother : Forall (fun e => TxnType_eqb (txn_type e) RECEIVE = false)
              (issue_rows (res_item_id r) rid (uuid4_next db)
                 (allocate (get_available_lots db (res_item_id r)) (res_qty r))
               ++ [{| led_id :=
                        (List.length
                           (allocate (get_available_lots db (res_item_id r))
                              (res_qty r)) + uuid4_next db)%nat;
                      led_item_id := res_item_id r; led_lot_id := None;
                      txn_type := UNRESERVE; led_qty := res_qty r;
                      led_reservation_id := Some rid |}])).
    { apply Forall_app. split; [|now repeat constructor].
      eapply Forall_impl; [|apply issue_rows_type]. intros e ->. reflexivity. }
    constructor; after_effect Et; try assumption.
    + apply Forall_forall. intros l Hl.
      rewrite lot_total_others; [|now apply Hlu|exact Hother].
      rewrite Forall_forall in Hlot. now apply Hlot.
    + intros i. rewrite ledger_total_others; [apply Hitem|apply Hiu|exact Hother].
    + apply Forall_app. split; [assumption|].
      apply Forall_app. split; [apply issue_rows_positive|].
      now repeat constructor.
    + apply Forall_map. revert Hres. apply Forall_impl. intros x Hx.
      unfold close_reservation. now destruct (Nat.eqb (res_id x) rid).
    + apply Forall_map. revert Hnc. apply Forall_impl. intros x Hx.
      unfold close_reservation.
      destruct (Nat.eqb (res_id x) rid); [discriminate|exact Hx].
  - constructor; after_effect Et; try assumption.
    + apply Forall_map. revert Hlot. apply Forall_impl. intros x Hx.
      now destruct (Nat.eqb (lot_id x) lid).
    + intros i. rewrite lots_received_set_qc. apply Hitem.
    + apply Forall_map. revert Hlots. apply Forall_impl. intros x Hx.
      now destruct (Nat.eqb (lot_id x) lid).
Qed.

Lemma consistent_effect db db' rq : consistent db -> effect db db' rq -> consistent db'.
Proof.
  intros [Hk Hb] He. split;
    [eapply keys_ok_effect|eapply books_ok_effect]; eassumption.
Qed.

Lemma consistent_run rqs : consistent (run rqs init_db).
Proof.
  apply invariant_run;
    [exact consistent_effect|exact quiescent_init|].
  split; [exact keys_ok_init|exact books_ok_init].
Qed.

(** ** Rounding *)

(** C1. The code is run on the request sequence: create an item without
    QC, receive 2.9, reserve 0.7, reserve 2.2, read the summary.  Every
    request succeeds: the second reserve passes the check
    [available < qty] because [2.9 - 0.7 < 2.2] is false in binary64.  The
    summary then reports [reserved = 2.9000000000000004] against
    [on_hand = 2.9], so [available], which is [on_hand - reserved], is
    [-4.44e-16]: below zero after a successful operation. *)
Theorem available_falls_below_zero :
  answers rounding_scenario init_db
  = [inr (ItemResp {| item_id := 0%nat; item_code := "RM-003";
                      item_name := "Copper Wire"; qc_required := false |});
     inr (ReceiveResp {| rcv_lot_id := 1%nat; rcv_item_id := 0%nat;
                         rcv_lot_code := "LOT-001"; rcv_received_qty := 2.9;
                         rcv_qc_status := APPROVED |});
     inr (ReserveResp {| rsv_reservation_id := 3%nat; rsv_item_id := 0%nat;
                         rsv_qty := 0.7; rsv_status := OPEN |});
     inr (ReserveResp {| rsv_reservation_id := 5%nat; rsv_item_id := 0%nat;
                         rsv_qty := 2.2; rsv_status := OPEN |});
     inr (SummaryResp {| on_hand := 2.9;
                         reserved := 0x1.7333333333334p+1;
                         available := -0x1p-51 |})]
  /\ (2.9 - 0.7 <? 2.2) = false
  /\ (available (calculate_stock (run rounding_scenario init_db) 0%nat) <? 0) = true.
Proof. vm_compute. repeat split. Qed.

(** ** The order of [get_available_lots] *)

Lemma string_lt_irrefl c : ~ String_as_OT.lt c c.
Proof. intros H. exact (String_as_OT.lt_not_eq _ _ H eq_refl). Qed.

Lemma code_le_trans a b c : code_le a b -> code_le b c -> code_le a c.
Proof.
  unfold code_le, String.leb. intros Hab Hbc.
  destruct (String.compare a c) eqn:Hac; try reflexivity.
  exfalso.
  assert (Hca : String_as_OT.lt c a).
  { apply String_as_OT.cmp_lt. unfold String_as_OT.cmp.
    rewrite String.compare_antisym, Hac. reflexivity. }
  destruct (String.compare a b) eqn:Eab; try discriminate;
    destruct (String.compare b c) eqn:Ebc; try discriminate.
  - apply String.compare_eq_iff in Eab, Ebc. subst.
    exact (string_lt_irrefl _ Hca).
  - apply String.compare_eq_iff in Eab. subst.
    apply String_as_OT.cmp_lt in Ebc.
    exact (string_lt_irrefl _ (String_as_OT.lt_trans _ _ _ Ebc Hca)).
  - apply String.compare_eq_iff in Ebc. subst.
    apply String_as_OT.cmp_lt in Eab.
    exact (string_lt_irrefl _ (String_as_OT.lt_trans _ _ _ Eab Hca)).
  - apply String_as_OT.cmp_lt in Eab, Ebc.
    exact (string_lt_irrefl _
             (String_as_OT.lt_trans _ _ _ (String_as_OT.lt_trans _ _ _ Eab Ebc) Hca)).
Qed.

Lemma insert_by_lot_code_sorted l ls :
  StronglySorted lot_code_le ls ->
  StronglySorted lot_code_le (insert_by_lot_code l ls).
Proof.
  induction 1 as [|h t Ht IH Hall]; simpl.
  - constructor; constructor.
  - destruct (String.leb (lot_code l) (lot_code h)) eqn:E.
    + constructor; [now constructor|].
      constructor; [exact E|].
      revert Hall. apply Forall_impl. intros x Hx.
      exact (code_le_trans _ _ _ E Hx).
    + constructor; [exact IH|].
      apply Forall_forall. intros x Hx.
      apply (Permutation_in _ (insert_by_lot_code_perm l t)) in Hx.
      destruct Hx as [<-|Hx].
      * destruct (String.leb_total (lot_code l) (lot_code h)) as [C|C];
          [congruence|exact C].
      * rewrite Forall_forall in Hall. now apply Hall.
Qed.

Lemma order_by_lot_code_sorted ls : StronglySorted lot_code_le (order_by_lot_code ls).
Proof.
  induction ls as [|l ls IH]; simpl; [constructor|].
  now apply insert_by_lot_code_sorted.
Qed.

Lemma order_by_lot_code_fixed ls :
  StronglySorted lot_code_le ls -> order_by_lot_code ls = ls.
Proof.
  induction 1 as [|h t Ht IH Hall]; simpl; [reflexivity|].
  rewrite IH. destruct t as [|h' t']; [reflexivity|]. simpl.
  inversion Hall as [|? ? Hh _]; subst.
  unfold lot_code_le, code_le in Hh. now rewrite Hh.
Qed.

Lemma StronglySorted_map {A B} (f : A -> B) (R : B -> B -> Prop) l :
  StronglySorted (fun x y => R (f x) (f y)) l -> StronglySorted R (map f l).
Proof.
  induction 1 as [|h t Ht IH Hall]; simpl; constructor; [exact IH|].
  apply Forall_map. exact Hall.
Qed.

(** C2, as the code has it. The lots handed to the allocation are exactly
    the item's [APPROVED] lots with a positive remainder, in ascending byte
    order of their lot codes; this is their creation order whenever the codes
    were given in ascending order. *)
Theorem available_lots_ordered_by_lot_code (db : Database) (item : uuid) :
  StronglySorted code_le (map ld_lot_code (get_available_lots db item))
  /\ Permutation (map ld_id (get_available_lots db item))
                 (map lot_id (lots_in_creation_order db item))
  /\ (StronglySorted lot_code_le (lots_in_creation_order db item) ->
      map ld_id (get_available_lots db item)
      = map lot_id (lots_in_creation_order db item)).
Proof.
  unfold get_available_lots, lots_in_creation_order.
  rewrite !map_map. cbn [mk_lot_dict ld_lot_code ld_id].
  split; [|split].
  - apply StronglySorted_map with (f := lot_code) (R := code_le).
    apply order_by_lot_code_sorted.
  - apply Permutation_map, order_by_lot_code_perm.
  - intros Hs. now rewrite order_by_lot_code_fixed.
Qed.

(** C2, witness: with the codes "LOT-A", "LOT-B", "LOT-C" given in that order
    the allocation order is the creation order. *)
Lemma available_lots_ordered_by_lot_code_witness :
  let db := run [CreateItem "RM-003" "Copper Wire" false;
                 ReceiveInventory 0%nat "LOT-A" 30;
                 ReceiveInventory 0%nat "LOT-B" 40;
                 ReceiveInventory 0%nat "LOT-C" 30] init_db in
  map ld_id (get_available_lots db 0%nat) = [1%nat; 3%nat; 5%nat]
  /\ map ld_id (get_available_lots db 0%nat)
     = map lot_id (lots_in_creation_order db 0%nat).
Proof.
  intros db. split; [vm_compute; reflexivity|].
  apply (available_lots_ordered_by_lot_code db 0%nat).
  vm_compute. repeat constructor.
Defined.

(** C2, counterexample: "LOT-B" is created before "LOT-A", yet the
    allocation takes "LOT-A" first. *)
Lemma lot_code_order_is_not_creation_order :
  map lot_code (lots_in_creation_order db_codes_out_of_order 0%nat) = ["LOT-B"; "LOT-A"]%string
  /\ map ld_lot_code (get_available_lots db_codes_out_of_order 0%nat) = ["LOT-A"; "LOT-B"]%string
  /\ ~ fifo_by_creation db_codes_out_of_order 0%nat.
Proof.
  split; [vm_compute; reflexivity|]. split; [vm_compute; reflexivity|].
  intros H. specialize (H 1%nat 3%nat).
  destruct H as (l1 & l2 & l3 & E).
  - exists [], [], []. vm_compute. reflexivity.
  - assert (E' : map ld_id (get_available_lots db_codes_out_of_order 0%nat)
                 = [3%nat; 1%nat]) by (vm_compute; reflexivity).
    rewrite E' in E.
    destruct l1 as [|x [|y l1]]; simpl in E.
    + discriminate.
    + injection E as _ E. destruct l2; discriminate.
    + injection E as _ _ E. destruct l1; discriminate.
Qed.

(** ** Allocation *)

(** What a successful issue found and what it wrote. *)
Lemma issue_inventory_ok rid db resp db' :
  issue_inventory rid db = (inr resp, db') ->
  journal db = None
  /\ exists r,
      select_reservation rid db = Some r
      /\ res_status r = OPEN
      /\ get_available_lots db (res_item_id r) <> []
      /\ (sumF (map ld_available (get_available_lots db (res_item_id r)))
          <? res_qty r) = false
      /\ is_nan (res_qty r) = false
      /\ resp = {| iss_reservation_id := rid; iss_item_id := res_item_id r;
                   iss_qty := res_qty r;
                   iss_lots_issued :=
                     allocate (get_available_lots db (res_item_id r)) (res_qty r) |}
      /\ db' = {| tables := issued_tables rid r (uuid4_next db) db;
                  journal := None;
                  uuid4_next :=
                    S (List.length (iss_lots_issued resp) + uuid4_next db) |}.
Proof.
  intros H. rewrite issue_inventory_eq in H.
  destruct (journal db) as [t|]; [discriminate|]. split; [reflexivity|].
  destruct (select_reservation rid db) as [r|]; [|discriminate].
  destruct (ReservationStatus_eqb (res_status r) OPEN) eqn:Hst; [|discriminate].
  apply ReservationStatus_eqb_eq in Hst. cbn [negb] in H.
  destruct (get_available_lots db (res_item_id r)) as [|l0 lots] eqn:Hlots;
    [discriminate|].
  rewrite <- Hlots in H.
  assert (Hne : get_available_lots db (res_item_id r) <> [])
    by (rewrite Hlots; discriminate).
  clear Hlots.
  destruct (_ <? res_qty r) eqn:Hlt; [discriminate|].
  cbv zeta in H. destruct (is_nan (res_qty r)) eqn:Hn; [discriminate|].
  injection H as <- <-. exists r. repeat split; assumption.
Qed.



Lemma lot_selected_true (t : Tables) item l :
  lot_selected t item l = true <->
  lot_item_id l = item /\ qc_status l = APPROVED
  /\ (0 <? received_qty l - issued_qty t l) = true.
Proof.
  unfold lot_selected.
  rewrite !andb_true_iff, Nat.eqb_eq, QCStatus_eqb_eq.
  tauto.
Qed.




(** ** Reserving *)

Lemma get_available_lots_nonempty (t : Tables) item :
  get_available_lots t item <> [] <-> has_approved_stock t item.
Proof.
  unfold has_approved_stock. split.
  - intros Hne. destruct (get_available_lots t item) as [|d ds] eqn:E;
      [contradiction|].
    assert (Hd : In d (get_available_lots t item)) by (rewrite E; now left).
    apply get_available_lots_In in Hd. destruct Hd as (l & Hin & Hsel & _).
    exists l. apply lot_selected_true in Hsel. tauto.
  - intros (l & Hin & Hl) E.
    apply (proj1 (get_available_lots_nil t item)) with (l := l) in E; [|exact Hin].
    apply lot_selected_true in Hl. congruence.
Qed.

(** C4, as the code has it. On a connection with no transaction left open,
    a valid reserve request on an existing item is decided by two checks, in
    this order: [available = on_hand - reserved] against the requested
    quantity ([INSUFFICIENT_STOCK]), then whether the lot query the issue
    also uses returns any lot at all ([NO_QC_APPROVED_LOT]). When both pass
    the reservation is written with its [RESERVE] row; how much the
    [APPROVED] lots hold is not compared with the request. *)
Theorem reserve_checks_stock_then_any_approved_lot
    (db : Database) (item : uuid) (qty : float) (it : item_row) :
  journal db = None ->
  (0 <? qty) = true ->
  select_item item db = Some it ->
  ((available (calculate_stock db item) <? qty) = true ->
   reserve_inventory item qty db = (inl INSUFFICIENT_STOCK, db))
  /\ ((available (calculate_stock db item) <? qty) = false ->
      ~ has_approved_stock db item ->
      reserve_inventory item qty db = (inl NO_QC_APPROVED_LOT, db))
  /\ ((available (calculate_stock db item) <? qty) = false ->
      has_approved_stock db item ->
      exists resp db',
        reserve_inventory item qty db = (inr resp, db')
        /\ rsv_item_id resp = item /\ rsv_qty resp = qty /\ rsv_status resp = OPEN
        /\ reservations db'
           = reservations db
             ++ [{| res_id := rsv_reservation_id resp; res_item_id := item;
                    res_qty := qty; res_status := OPEN |}]
        /\ exists n,
            inventory_ledger db'
            = inventory_ledger db
              ++ [{| led_id := n; led_item_id := item; led_lot_id := None;
                     txn_type := RESERVE; led_qty := qty;
                     led_reservation_id := Some (rsv_reservation_id resp) |}]).
Proof.
  intros J Hqty Hit. rewrite reserve_inventory_eq, Hit, Hqty, J.
  rewrite (set_journal_same db None J).
  pose proof (get_available_lots_nonempty db item) as Hne.
  split; [|split].
  - intros Hlt. now rewrite Hlt.
  - intros Hge Hno. rewrite Hge.
    destruct (get_available_lots db item); [reflexivity|].
    exfalso. apply Hno, Hne. discriminate.
  - intros Hge Hyes. rewrite Hge.
    apply Hne in Hyes.
    destruct (get_available_lots db item); [contradiction|].
    eexists. eexists. split; [reflexivity|]. cbn.
    repeat split. eexists. reflexivity.
Qed.

(** C4, witness: 50 units reserved while the only [APPROVED] lot holds 10. *)
Lemma reserve_checks_stock_then_any_approved_lot_witness :
  exists resp db',
    reserve_inventory 0%nat 50 db_mostly_quarantined = (inr resp, db')
    /\ rsv_status resp = OPEN.
Proof.
  destruct (reserve_checks_stock_then_any_approved_lot
              db_mostly_quarantined 0%nat 50
              {| item_id := 0%nat; item_code := "RM-001";
                 item_name := "Steel Sheet"; qc_required := true |})
    as (_ & _ & H).
  - vm_compute. reflexivity.
  - vm_compute. reflexivity.
  - vm_compute. reflexivity.
  - destruct H as (resp & db' & E & _ & _ & Hst & _).
    + vm_compute. reflexivity.
    + exists {| lot_id := 1%nat; lot_item_id := 0%nat; lot_code := "LOT-001";
               received_qty := 10; qc_status := APPROVED |}.
      vm_compute. intuition congruence.
    + exists resp, db'. split; assumption.
Defined.

(** C4, counterexample: the [APPROVED] lots of the item hold 10 units, a
    reserve request for 50 succeeds on the strength of the quarantined 100,
    and the reservation cannot be issued. *)
Lemma reserve_succeeds_beyond_approved_stock :
  approved_available db_mostly_quarantined 0%nat = 10
  /\ fst (reserve_inventory 0%nat 50 db_mostly_quarantined)
     = inr {| rsv_reservation_id := 5%nat; rsv_item_id := 0%nat;
              rsv_qty := 50; rsv_status := OPEN |}
  /\ fst (issue_inventory 5%nat
            (snd (reserve_inventory 0%nat 50 db_mostly_quarantined)))
     = inl INSUFFICIENT_STOCK.
Proof. vm_compute. repeat split. Qed.

(** ** Issuing twice *)

(** C5. The code is run on the request sequence: create an item, receive
    100, reserve 30, issue the reservation, ask for a QC decision on a lot
    that does not exist, then issue the same reservation again, twice.  The
    QC request is answered [LOT_NOT_FOUND] and, having raised without
    [conn.rollback()], leaves its transaction open; so the first repeated
    issue, whose reservation is [ISSUED], is answered [INTERNAL_ERROR] and
    not [RESERVATION_ALREADY_ISSUED].  Only the second one, the connection
    having been rolled back, is answered [RESERVATION_ALREADY_ISSUED].  The
    ledger is the same after all three. *)
Theorem reissue_after_failed_request_is_internal_error :
  map (fun a => match a with inl e => Some e | inr _ => None end)
      (answers reissue_scenario init_db)
  = [None; None; None; None;
     Some LOT_NOT_FOUND; Some INTERNAL_ERROR; Some RESERVATION_ALREADY_ISSUED]
  /\ option_map res_status
       (select_reservation 3%nat (run (firstn 5 reissue_scenario) init_db))
     = Some ISSUED
  /\ in_transaction (run (firstn 5 reissue_scenario) init_db) = true
  /\ inventory_ledger (run reissue_scenario init_db)
     = inventory_ledger (run (firstn 4 reissue_scenario) init_db).
Proof. vm_compute. repeat split. Qed.

(** ** What an issue writes *)

Lemma issue_rows_for item rid ils :
  forall n, Forall2 (issue_row_for item rid) (issue_rows item rid n ils) ils.
Proof.
  induction ils as [|il ils IH]; intros n; simpl; constructor.
  - repeat split.
  - apply IH.
Qed.

Lemma find_close_reservation rid rs r :
  find (fun x => Nat.eqb (res_id x) rid) rs = Some r ->
  find (fun x => Nat.eqb (res_id x) rid) (map (close_reservation rid) rs)
  = Some (set_res_status ISSUED r).
Proof.
  induction rs as [|h rs IH]; cbn [map find]; [discriminate|].
  assert (Hc : close_reservation rid h
               = if Nat.eqb (res_id h) rid then set_res_status ISSUED h else h)
    by reflexivity.
  rewrite Hc. destruct (Nat.eqb (res_id h) rid) eqn:E.
  - cbn [res_id set_res_status]. rewrite E. intros [= ->]. reflexivity.
  - rewrite E. exact IH.
Qed.

(** C6. A successful issue appends to the ledger one [ISSUE] row per element
    of [lots_issued], each for that lot and quantity and tagged with the
    reservation, then one [UNRESERVE] row for the whole reserved quantity,
    and it turns the reservation from [OPEN] to [ISSUED]. In the scenario
    receive 100, reserve 30, issue, the summaries are (100, 30, 70) and then
    (70, 0, 70), and reserving 1000 is refused with [INSUFFICIENT_STOCK]. *)
Theorem issue_appends_rows_and_closes_reservation :
  (forall (db : Database) (rid : uuid) resp db',
      issue_inventory rid db = (inr resp, db') ->
      exists r issues unreserve,
        select_reservation rid db = Some r
        /\ res_status r = OPEN
        /\ inventory_ledger db' = inventory_ledger db ++ issues ++ [unreserve]
        /\ Forall2 (issue_row_for (res_item_id r) rid) issues (iss_lots_issued resp)
        /\ txn_type unreserve = UNRESERVE
        /\ led_qty unreserve = res_qty r
        /\ led_item_id unreserve = res_item_id r
        /\ led_lot_id unreserve = None
        /\ led_reservation_id unreserve = Some rid
        /\ select_reservation rid db' = Some (set_res_status ISSUED r)
        /\ inventory_lots db' = inventory_lots db)
  /\ answers stock_scenario init_db
     = [inr (ItemResp {| item_id := 0%nat; item_code := "RM-003";
                         item_name := "Copper Wire"; qc_required := false |});
        inr (ReceiveResp {| rcv_lot_id := 1%nat; rcv_item_id := 0%nat;
                            rcv_lot_code := "LOT-001"; rcv_received_qty := 100;
                            rcv_qc_status := APPROVED |});
        inr (ReserveResp {| rsv_reservation_id := 3%nat; rsv_item_id := 0%nat;
                            rsv_qty := 30; rsv_status := OPEN |});
        inr (SummaryResp {| on_hand := 100; reserved := 30; available := 70 |});
        inr (IssueResp {| iss_reservation_id := 3%nat; iss_item_id := 0%nat;
                          iss_qty := 30;
                          iss_lots_issued :=
                            [{| il_lot_id := 1%nat; il_lot_code := "LOT-001";
                                il_qty := 30 |}] |});
        inr (SummaryResp {| on_hand := 70; reserved := 0; available := 70 |});
        inl INSUFFICIENT_STOCK].
Proof.
  split; [|vm_compute; reflexivity].
  intros db rid resp db' Hok.
  destruct (issue_inventory_ok _ _ _ _ Hok)
    as (_ & r & Hsel & Hst & _ & _ & _ & -> & ->).
  eexists r, _, _. split; [exact Hsel|]. split; [exact Hst|].
  cbn [tables inventory_ledger issued_tables iss_lots_issued inventory_lots].
  split; [reflexivity|]. split; [apply issue_rows_for|].
  cbn [txn_type led_qty led_item_id led_lot_id led_reservation_id].
  repeat split.
  unfold select_reservation in *. cbn [reservations tables].
  now apply find_close_reservation.
Qed.

(** C6, witness: the first issue of the FIFO scenario. *)
Lemma issue_appends_rows_and_closes_reservation_witness :
  exists r,
    select_reservation 7%nat
      (snd (issue_inventory 7%nat (run (firstn 5 fifo_scenario) init_db)))
    = Some (set_res_status ISSUED r).
Proof.
  destruct (issue_inventory 7%nat (run (firstn 5 fifo_scenario) init_db))
    as [[e|resp] db'] eqn:E; [vm_compute in E; discriminate|].
  destruct (proj1 issue_appends_rows_and_closes_reservation _ _ _ _ E)
    as (r & _ & _ & _ & _ & _ & _ & _ & _ & _ & _ & _ & H & _).
  exists r. exact H.
Defined.

(** ** How the lot table evolves *)

Lemma effect_lots db db' rq :
  effect db db' rq ->
  exists f extra,
    inventory_lots db' = map f (inventory_lots db) ++ extra
    /\ (forall l, lot_evolves l (f l))
    /\ (is_qc_update rq = false -> forall l, f l = l).
Proof.
  assert (Hid : forall ls : list lot_row, ls = map (fun l => l) ls ++ [])
    by (intros ls; now rewrite map_id, app_nil_r).
  intros Heff.
  destruct Heff as
    [rq Et En
    |row Hcode Hid' Et En
    |it lot Hit Hq Hcode Hid' Hst Et En
    |it r Hit Hq Hav Hne Hid' Hst Et En
    |rid r Hsel Hst Hne Hle Hnan Et En
    |lid st l Hsel Hst Et En];
    after_effect Et.
  1,2,4,5: exists (fun l => l), []; split; [apply Hid|]; split; [now left|reflexivity].
  - exists (fun l => l), [lot]. rewrite map_id.
    split; [reflexivity|]. split; [now left|reflexivity].
  - eexists _, []. rewrite app_nil_r. split; [reflexivity|].
    split; [|discriminate].
    intros x. destruct (Nat.eqb (lot_id x) lid); [right|now left].
    exists st. split; [assumption|reflexivity].
Qed.

Lemma lot_evolves_fields l l' :
  lot_evolves l l' ->
  lot_id l' = lot_id l /\ lot_item_id l' = lot_item_id l
  /\ lot_code l' = lot_code l /\ received_qty l' = received_qty l
  /\ (qc_status l <> QUARANTINE -> qc_status l' <> QUARANTINE).
Proof.
  intros [->|(st & Hst & ->)]; simpl; tauto.
Qed.

Lemma lot_evolves_trans a b c : lot_evolves a b -> lot_evolves b c -> lot_evolves a c.
Proof.
  intros [->|(s1 & H1 & ->)] [->|(s2 & H2 & ->)].
  - now left.
  - right. eauto.
  - right. eauto.
  - right. exists s2. split; [assumption|reflexivity].
Qed.

Lemma select_lot_handle rq db lid l :
  quiescent db ->
  select_lot lid db = Some l ->
  exists l', select_lot lid (snd (handle rq db)) = Some l'
             /\ lot_evolves l l'
             /\ (is_qc_update rq = false -> l' = l).
Proof.
  unfold select_lot. intros Hq Hsel.
  destruct (handle_effect rq db Hq) as [Heff _].
  destruct (effect_lots _ _ _ Heff) as (f & extra & -> & Hf & Hno).
  assert (Hfind : forall ls,
             find (fun x => Nat.eqb (lot_id x) lid) ls = Some l ->
             find (fun x => Nat.eqb (lot_id x) lid) (map f ls ++ extra)
             = Some (f l)).
  { induction ls as [|h t IH]; simpl; [discriminate|].
    destruct (lot_evolves_fields _ _ (Hf h)) as (-> & _).
    destruct (Nat.eqb (lot_id h) lid); [now intros [= ->]|exact IH]. }
  exists (f l). split; [now apply Hfind|]. split; [apply Hf|].
  intros Hrq. now apply Hno.
Qed.

Lemma select_lot_run rqs :
  forall db lid l,
    quiescent db ->
    select_lot lid db = Some l ->
    exists l', select_lot lid (run rqs db) = Some l' /\ lot_evolves l l'.
Proof.
  induction rqs as [|rq rqs IH]; intros db lid l Hq Hsel; simpl.
  - exists l. split; [assumption|now left].
  - destruct (select_lot_handle rq db lid l Hq Hsel) as (l1 & H1 & E1 & _).
    destruct (IH _ _ _ (proj2 (handle_effect rq db Hq)) H1) as (l2 & H2 & E2).
    exists l2. split; [assumption|]. eapply lot_evolves_trans; eassumption.
Qed.

Lemma lot_code_taken_handle rq db code :
  quiescent db ->
  existsb (fun l => String.eqb (lot_code l) code) (inventory_lots db) = true ->
  existsb (fun l => String.eqb (lot_code l) code)
          (inventory_lots (snd (handle rq db))) = true.
Proof.
  intros Hq. destruct (handle_effect rq db Hq) as [Heff _].
  destruct (effect_lots _ _ _ Heff) as (f & extra & -> & Hf & _).
  rewrite existsb_app, !existsb_exists.
  intros (l & Hin & Hl). apply orb_true_iff. left.
  apply existsb_exists. exists (f l). split; [now apply in_map|].
  destruct (lot_evolves_fields _ _ (Hf l)) as (_ & _ & -> & _). exact Hl.
Qed.

Lemma lot_code_taken_run rqs :
  forall db code,
    quiescent db ->
    existsb (fun l => String.eqb (lot_code l) code) (inventory_lots db) = true ->
    existsb (fun l => String.eqb (lot_code l) code)
            (inventory_lots (run rqs db)) = true.
Proof.
  induction rqs as [|rq rqs IH]; intros db code Hq H; simpl; [exact H|].
  apply IH; [apply handle_effect, Hq|apply lot_code_taken_handle; assumption].
Qed.

(** ** Quality-control gating *)

Lemma no_approved_lot_no_stock (t : Tables) item :
  no_approved_lot t item -> get_available_lots t item = [].
Proof.
  intros Hno. apply get_available_lots_nil. intros l Hin.
  destruct (lot_selected t item l) eqn:E; [|reflexivity].
  apply lot_selected_true in E. destruct E as (Hi & Hs & _).
  now destruct (Hno l Hin Hi).
Qed.

(** What a successful receive found and what it wrote. *)
Lemma receive_inventory_ok item code qty db resp db' :
  receive_inventory item code qty db = (inr resp, db') ->
  journal db = None
  /\ (0 <? qty) = true
  /\ existsb (fun l => String.eqb (lot_code l) code) (inventory_lots db) = false
  /\ exists it,
      select_item item db = Some it
      /\ resp = {| rcv_lot_id := uuid4_next db; rcv_item_id := item;
                   rcv_lot_code := code; rcv_received_qty := qty;
                   rcv_qc_status := if qc_required it then QUARANTINE else APPROVED |}
      /\ db' = {| tables :=
                    add_lot {| lot_id := uuid4_next db; lot_item_id := item;
                               lot_code := code; received_qty := qty;
                               qc_status := rcv_qc_status resp |}
                            {| led_id := S (uuid4_next db); led_item_id := item;
                               led_lot_id := Some (uuid4_next db);
                               txn_type := RECEIVE; led_qty := qty;
                               led_reservation_id := None |} db;
                  journal := None;
                  uuid4_next := S (S (uuid4_next db)) |}.
Proof.
  rewrite receive_inventory_eq.
  destruct (0 <? qty); [|discriminate].
  destruct (select_item item db) as [it|]; [|discriminate].
  destruct (journal db); [discriminate|].
  destruct (existsb _ _); [discriminate|].
  intros [= <- <-]. repeat split. exists it. repeat split.
Qed.

Lemma approve_makes_stock db lid l :
  journal db = None ->
  select_lot lid db = Some l ->
  (0 <? received_qty l - issued_qty db l) = true ->
  exists db',
    update_lot_qc_status lid APPROVED db = (inr (lid, APPROVED), db')
    /\ journal db' = None
    /\ items db' = items db
    /\ inventory_ledger db' = inventory_ledger db
    /\ reservations db' = reservations db
    /\ has_approved_stock db' (lot_item_id l).
Proof.
  intros J Hsel Hpos. rewrite update_lot_qc_status_eq, Hsel, J. simpl.
  eexists. split; [reflexivity|]. simpl. repeat split.
  unfold select_lot in Hsel. apply find_some in Hsel. destruct Hsel as [Hin Hid].
  exists (set_qc_status APPROVED l). simpl. repeat split; [|exact Hpos].
  apply in_map_iff. exists l. rewrite Hid. now split.
Qed.

(** C7, as the code has it. A receive creates the lot in [QUARANTINE] when
    the item requires QC and [APPROVED] otherwise. On a connection with no
    transaction left open: while an item has no [APPROVED] lot, a reserve
    request for it does not succeed, it is answered [NO_QC_APPROVED_LOT] when
    the quantity passes the stock check and [INSUFFICIENT_STOCK] when it
    does not; and once a lot with a remainder is set to [APPROVED], every
    request that passes the stock check succeeds.  With 50 units received,
    reserving 10 is refused before the approval and granted after it. *)
Theorem qc_gates_reservation :
  (forall db item code qty resp db',
      receive_inventory item code qty db = (inr resp, db') ->
      exists it,
        select_item item db = Some it
        /\ rcv_qc_status resp = (if qc_required it then QUARANTINE else APPROVED)
        /\ inventory_lots db'
           = inventory_lots db
             ++ [{| lot_id := rcv_lot_id resp; lot_item_id := item;
                    lot_code := code; received_qty := qty;
                    qc_status := rcv_qc_status resp |}])
  /\ (forall (db : Database) item qty it,
         journal db = None ->
         select_item item db = Some it ->
         no_approved_lot db item ->
         (0 <? qty) = true ->
         ((available (calculate_stock db item) <? qty) = false ->
          reserve_inventory item qty db = (inl NO_QC_APPROVED_LOT, db))
         /\ ((available (calculate_stock db item) <? qty) = true ->
             reserve_inventory item qty db = (inl INSUFFICIENT_STOCK, db)))
  /\ (forall (db : Database) lid l it qty,
         journal db = None ->
         select_lot lid db = Some l ->
         select_item (lot_item_id l) db = Some it ->
         (0 <? received_qty l - issued_qty db l) = true ->
         (0 <? qty) = true ->
         (available (calculate_stock db (lot_item_id l)) <? qty) = false ->
         exists db' resp db'',
           update_lot_qc_status lid APPROVED db = (inr (lid, APPROVED), db')
           /\ reserve_inventory (lot_item_id l) qty db' = (inr resp, db'')
           /\ rsv_qty resp = qty /\ rsv_status resp = OPEN)
  /\ answers qc_scenario init_db
     = [inr (ItemResp {| item_id := 0%nat; item_code := "RM-001";
                         item_name := "Steel Sheet"; qc_required := true |});
        inr (ReceiveResp {| rcv_lot_id := 1%nat; rcv_item_id := 0%nat;
                            rcv_lot_code := "LOT-QC-001"; rcv_received_qty := 50;
                            rcv_qc_status := QUARANTINE |});
        inl NO_QC_APPROVED_LOT;
        inr (QcResp (1%nat, APPROVED));
        inr (ReserveResp {| rsv_reservation_id := 3%nat; rsv_item_id := 0%nat;
                            rsv_qty := 10; rsv_status := OPEN |})].
Proof.
  split; [|split; [|split]].
  - intros db item code qty resp db' Hok.
    destruct (receive_inventory_ok _ _ _ _ _ _ Hok)
      as (_ & _ & _ & it & Hit & -> & ->).
    exists it. repeat split. exact Hit.
  - intros db item qty it J Hit Hno Hqty.
    rewrite reserve_inventory_eq, J, Hit, (no_approved_lot_no_stock _ _ Hno), Hqty.
    rewrite (set_journal_same db None J).
    split; intros H; now rewrite H.
  - intros db lid l it qty J Hsel Hit Hpos Hqty Hav.
    destruct (approve_makes_stock db lid l J Hsel Hpos)
      as (db' & E & J' & Hitems & Hled & Hres & Hstock).
    exists db'. rewrite E, reserve_inventory_eq, Hqty, J'.
    unfold select_item. rewrite Hitems. fold (select_item (lot_item_id l) db).
    rewrite Hit.
    assert (Hcs : calculate_stock db' (lot_item_id l)
                  = calculate_stock db (lot_item_id l))
      by (unfold calculate_stock; now rewrite Hled, Hres).
    rewrite Hcs, Hav.
    apply get_available_lots_nonempty in Hstock.
    destruct (get_available_lots db' (lot_item_id l)); [contradiction|].
    eexists _, _. repeat split.
  - vm_compute. reflexivity.
Qed.

(** C7, witness: the quarantined lot of 50 is approved and 10 are reserved. *)
Lemma qc_gates_reservation_witness :
  exists db' resp db'',
    update_lot_qc_status 1%nat APPROVED (run (firstn 2 qc_scenario) init_db)
    = (inr (1%nat, APPROVED), db')
    /\ reserve_inventory 0%nat 10 db' = (inr resp, db'')
    /\ rsv_qty resp = 10 /\ rsv_status resp = OPEN.
Proof.
  destruct qc_gates_reservation as (_ & _ & H & _).
  apply (H (run (firstn 2 qc_scenario) init_db) 1%nat
           {| lot_id := 1%nat; lot_item_id := 0%nat; lot_code := "LOT-QC-001";
              received_qty := 50; qc_status := QUARANTINE |}
           {| item_id := 0%nat; item_code := "RM-001";
              item_name := "Steel Sheet"; qc_required := true |} 10).
  - vm_compute. reflexivity.
  - vm_compute. reflexivity.
  - vm_compute. reflexivity.
  - vm_compute. reflexivity.
  - vm_compute. reflexivity.
  - vm_compute. reflexivity.
Defined.

(** C7, counterexample: with the quarantined lot of 50 as the item's only
    lot, a reserve request for 60 is answered [INSUFFICIENT_STOCK], not
    [NO_QC_APPROVED_LOT]. *)
Lemma quarantined_item_reserve_above_stock :
  map qc_status (inventory_lots (run (firstn 2 qc_scenario) init_db)) = [QUARANTINE]
  /\ reserve_inventory 0%nat 60 (run (firstn 2 qc_scenario) init_db)
     = (inl INSUFFICIENT_STOCK, run (firstn 2 qc_scenario) init_db)
  /\ fst (reserve_inventory 0%nat 60 (run (firstn 2 qc_scenario) init_db))
     <> inl NO_QC_APPROVED_LOT.
Proof. vm_compute. repeat split. discriminate. Qed.

(** ** The ledger only grows *)

Lemma effect_ledger db db' rq :
  effect db db' rq ->
  exists rows, inventory_ledger db' = inventory_ledger db ++ rows.
Proof.
  intros Heff.
  destruct Heff as
    [rq Et En
    |row Hcode Hid' Et En
    |it lot Hit Hq Hcode Hid' Hst Et En
    |it r Hit Hq Hav Hne Hid' Hst Et En
    |rid r Hsel Hst Hne Hle Hnan Et En
    |lid st l Hsel Hst Et En];
    after_effect Et; try (exists []; now rewrite app_nil_r);
    eexists; reflexivity.
Qed.

Lemma ledger_run rqs :
  forall db, quiescent db ->
             exists rows, inventory_ledger (run rqs db) = inventory_ledger db ++ rows.
Proof.
  induction rqs as [|rq rqs IH]; intros db Hq; simpl.
  - exists []. now rewrite app_nil_r.
  - destruct (handle_effect rq db Hq) as [Heff Hq'].
    destruct (effect_ledger _ _ _ Heff) as (rows1 & E1).
    destruct (IH _ Hq') as (rows2 & E2).
    exists (rows1 ++ rows2). now rewrite E2, E1, app_assoc.
Qed.

Lemma lots_run rqs :
  forall db l,
    quiescent db ->
    In l (inventory_lots db) ->
    exists l', In l' (inventory_lots (run rqs db)) /\ lot_evolves l l'.
Proof.
  induction rqs as [|rq rqs IH]; intros db l Hq Hin; simpl.
  - exists l. split; [assumption|now left].
  - destruct (handle_effect rq db Hq) as [Heff Hq'].
    destruct (effect_lots _ _ _ Heff) as (f & extra & E & Hf & _).
    destruct (IH (snd (handle rq db)) (f l) Hq') as (l2 & H2 & E2).
    + rewrite E. apply in_or_app. left. now apply in_map.
    + exists l2. split; [assumption|].
      eapply lot_evolves_trans; [apply Hf|exact E2].
Qed.

(** ** Lot codes are unique *)

(** C8, as the code has it. Once a receive with some lot code has
    succeeded, and whatever requests are served afterwards, a further
    receive with the same code, for any item, fails and writes nothing.  The
    checks that come before the [INSERT] answer first: a quantity that is not
    positive is refused by the validation, an unknown item is answered
    [ITEM_NOT_FOUND]; a request that passes both on a connection with no
    transaction left open is answered [DUPLICATE_LOT_CODE].  After the
    refusal the lot of the first receive is still in the lot table, with its
    item, code and quantity, and its [RECEIVE] row is still in the ledger. *)
Theorem duplicate_lot_code_rejected
    (db : Database) (item1 : uuid) (code : string) (qty1 : float)
    (resp : ReceiveInventoryResponse) (db1 : Database)
    (rqs : list Request) (item2 : uuid) (qty2 : float) :
  receive_inventory item1 code qty1 db = (inr resp, db1) ->
  let db2 := run rqs db1 in
  let second := receive_inventory item2 code qty2 db2 in
  (exists e, fst second = inl e)
  /\ ((0 <? qty2) = false -> fst second = inl REQUEST_VALIDATION_ERROR)
  /\ ((0 <? qty2) = true -> select_item item2 db2 = None ->
      fst second = inl ITEM_NOT_FOUND)
  /\ ((0 <? qty2) = true -> select_item item2 db2 <> None ->
      journal db2 = None ->
      fst second = inl DUPLICATE_LOT_CODE)
  /\ tables (snd second) = tables db2
  /\ (exists l, In l (inventory_lots (snd second))
                /\ lot_id l = rcv_lot_id resp
                /\ lot_item_id l = item1
                /\ lot_code l = code
                /\ received_qty l = qty1)
  /\ (exists n,
        In {| led_id := n; led_item_id := item1;
              led_lot_id := Some (rcv_lot_id resp); txn_type := RECEIVE;
              led_qty := qty1; led_reservation_id := None |}
           (inventory_ledger (snd second))).
Proof.
  intros Hfirst db2 second.
  destruct (receive_inventory_ok _ _ _ _ _ _ Hfirst)
    as (_ & _ & _ & it1 & _ & Hresp & Hdb1).
  assert (Hq1 : quiescent db1) by (rewrite Hdb1; exact I).
  assert (Hq2 : quiescent db2) by now apply quiescent_run.
  assert (Hcode : existsb (fun l => String.eqb (lot_code l) code)
                          (inventory_lots db2) = true).
  { apply lot_code_taken_run; [exact Hq1|].
    rewrite Hdb1. cbn [tables inventory_lots add_lot].
    rewrite existsb_app. cbn [existsb lot_code]. rewrite String.eqb_refl.
    now rewrite orb_true_r. }
  assert (Htables : tables (snd second) = tables db2
                    /\ (exists e, fst second = inl e)
                    /\ ((0 <? qty2) = false -> fst second = inl REQUEST_VALIDATION_ERROR)
                    /\ ((0 <? qty2) = true -> select_item item2 db2 = None ->
                        fst second = inl ITEM_NOT_FOUND)
                    /\ ((0 <? qty2) = true -> select_item item2 db2 <> None ->
                        journal db2 = None ->
                        fst second = inl DUPLICATE_LOT_CODE)).
  { subst second. rewrite receive_inventory_eq.
    destruct (0 <? qty2).
    2:{ cbn. repeat split; eauto; discriminate. }
    destruct (select_item item2 db2) as [it2|].
    2:{ cbn. repeat split; eauto; try discriminate. now intros _ []. }
    unfold quiescent in Hq2.
    destruct (journal db2) as [t|].
    { cbn. repeat split; eauto; discriminate. }
    rewrite Hcode. cbn. repeat split; eauto; discriminate. }
  destruct Htables as (Ht & Hfail & H422 & H404 & Hdup).
  repeat split; try assumption.
  - destruct (lots_run rqs db1
                {| lot_id := rcv_lot_id resp; lot_item_id := item1;
                   lot_code := code; received_qty := qty1;
                   qc_status := rcv_qc_status resp |} Hq1)
      as (l' & Hin & Hev).
    { rewrite Hdb1. cbn [tables inventory_lots add_lot].
      apply in_or_app. right. left. rewrite Hresp. reflexivity. }
    exists l'. rewrite Ht.
    destruct (lot_evolves_fields _ _ Hev) as (H1 & H2 & H3 & H4 & _).
    repeat split; assumption.
  - destruct (ledger_run rqs db1 Hq1) as (rows & E).
    exists (S (uuid4_next db)). rewrite Ht. fold db2 in E. rewrite E.
    apply in_or_app. left.
    rewrite Hdb1. cbn [tables inventory_ledger add_lot].
    apply in_or_app. right. left. rewrite Hresp. reflexivity.
Qed.

(** C8, witness: the code of an item's lot is refused for another item. *)
Lemma duplicate_lot_code_rejected_witness :
  fst (receive_inventory 1%nat "LOT-DUP-001" 50 (run duplicate_scenario init_db))
  = inl DUPLICATE_LOT_CODE.
Proof.
  refine (proj1 (proj2 (proj2 (proj2
            (duplicate_lot_code_rejected
               (run (firstn 2 duplicate_scenario) init_db) 0%nat "LOT-DUP-001" 100
               {| rcv_lot_id := 2%nat; rcv_item_id := 0%nat;
                  rcv_lot_code := "LOT-DUP-001"; rcv_received_qty := 100;
                  rcv_qc_status := APPROVED |}
               (run duplicate_scenario init_db) [] 1%nat 50 _)))) _ _ _).
  - vm_compute. reflexivity.
  - vm_compute. reflexivity.
  - vm_compute. discriminate.
  - vm_compute. reflexivity.
Defined.

(** C8, counterexample: a second receive with the code of an existing lot,
    for an item that does not exist, is answered [ITEM_NOT_FOUND] and not
    [DUPLICATE_LOT_CODE]. *)
Lemma duplicate_code_for_unknown_item :
  map lot_code (inventory_lots (run duplicate_scenario init_db))
  = ["LOT-DUP-001"]%string
  /\ fst (receive_inventory 99%nat "LOT-DUP-001" 50 (run duplicate_scenario init_db))
     = inl ITEM_NOT_FOUND
  /\ fst (receive_inventory 99%nat "LOT-DUP-001" 50 (run duplicate_scenario init_db))
     <> inl DUPLICATE_LOT_CODE.
Proof. vm_compute. repeat split. discriminate. Qed.

(** ** QC decisions *)

(** C9, as the code has it. On a connection with no transaction left open,
    a QC decision sets the status of any existing lot to the requested
    [APPROVED] or [REJECTED], whatever the lot's current status. No request
    ever puts a lot that left [QUARANTINE] back into it, the received
    quantity never changes, and no request other than a QC decision changes
    an existing lot. *)
Theorem qc_status_leaves_quarantine_for_good :
  (forall (db : Database) lid l st,
      journal db = None ->
      select_lot lid db = Some l ->
      st <> QUARANTINE ->
      exists db',
        update_lot_qc_status lid st db = (inr (lid, st), db')
        /\ select_lot lid db' = Some (set_qc_status st l))
  /\ (forall rqs (db : Database) lid l,
         quiescent db ->
         select_lot lid db = Some l ->
         exists l',
           select_lot lid (run rqs db) = Some l'
           /\ received_qty l' = received_qty l
           /\ lot_code l' = lot_code l
           /\ (qc_status l <> QUARANTINE -> qc_status l' <> QUARANTINE))
  /\ (forall rq (db : Database) lid l,
         quiescent db ->
         is_qc_update rq = false ->
         select_lot lid db = Some l ->
         select_lot lid (snd (handle rq db)) = Some l).
Proof.
  split; [|split].
  - intros db lid l st J Hsel Hst.
    rewrite update_lot_qc_status_eq, Hsel, J.
    destruct (QCStatus_eqb st QUARANTINE) eqn:E;
      [apply QCStatus_eqb_eq in E; contradiction|].
    eexists. split; [reflexivity|].
    unfold select_lot in *. cbn [tables inventory_lots].
    clear E Hst J. induction (inventory_lots db) as [|h t IH]; simpl in *;
      [discriminate|].
    destruct (Nat.eqb (lot_id h) lid) eqn:Eh; simpl; rewrite Eh.
    + now injection Hsel as ->.
    + now apply IH.
  - intros rqs db lid l Hq Hsel.
    destruct (select_lot_run rqs db lid l Hq Hsel) as (l' & Hsel' & Hev).
    exists l'. split; [assumption|].
    destruct (lot_evolves_fields _ _ Hev) as (_ & _ & Hc & Hr & Hs).
    repeat split; assumption.
  - intros rq db lid l Hq Hrq Hsel.
    destruct (select_lot_handle rq db lid l Hq Hsel) as (l' & Hsel' & _ & Hsame).
    now rewrite Hsel', (Hsame Hrq).
Qed.

(** C9, witness: an [APPROVED] lot is set to [REJECTED]. *)
Lemma qc_status_leaves_quarantine_for_good_witness :
  exists db',
    update_lot_qc_status 1%nat REJECTED (run approved_lot_scenario init_db)
    = (inr (1%nat, REJECTED), db')
    /\ select_lot 1%nat db'
       = Some {| lot_id := 1%nat; lot_item_id := 0%nat; lot_code := "LOT-001";
                 received_qty := 100; qc_status := REJECTED |}.
Proof.
  destruct qc_status_leaves_quarantine_for_good as (H & _).
  apply (H (run approved_lot_scenario init_db) 1%nat
           {| lot_id := 1%nat; lot_item_id := 0%nat; lot_code := "LOT-001";
              received_qty := 100; qc_status := APPROVED |} REJECTED).
  - vm_compute. reflexivity.
  - vm_compute. reflexivity.
  - discriminate.
Defined.

(** C9, counterexample: a lot that is [APPROVED] becomes [REJECTED], and a
    [REJECTED] lot becomes [APPROVED] again. *)
Lemma approved_and_rejected_are_not_terminal :
  option_map qc_status (select_lot 1%nat (run approved_lot_scenario init_db))
  = Some APPROVED
  /\ option_map qc_status
       (select_lot 1%nat
          (run (approved_lot_scenario ++ [UpdateLotQcStatus 1%nat REJECTED]) init_db))
     = Some REJECTED
  /\ option_map qc_status
       (select_lot 1%nat
          (run (approved_lot_scenario
                  ++ [UpdateLotQcStatus 1%nat REJECTED;
                      UpdateLotQcStatus 1%nat APPROVED]) init_db))
     = Some APPROVED.
Proof. vm_compute. repeat split. Qed.

(** ** Exhausted lots *)




(** ** The ledger, the keys and the receipts along a run *)

(** X1. The ledger is append-only: whatever requests are served, from any
    state without pending writes, the rows that were in the ledger are still
    there, unchanged and in the same order, followed by the rows written
    since. In every state reached from the empty tables each row carries a
    positive quantity. *)
Theorem ledger_is_append_only :
  (forall (rqs : list Request) (db : Database),
      quiescent db ->
      exists rows, inventory_ledger (run rqs db) = inventory_ledger db ++ rows)
  /\ (forall rqs : list Request,
         Forall (fun e => (0 <? led_qty e) = true)
                (inventory_ledger (run rqs init_db))).
Proof.
  split.
  - exact ledger_run.
  - intros rqs. destruct (consistent_run rqs) as [_ Hb].
    exact (ledger_positive _ Hb).
Qed.

(** X1, witness: the ledger of the stock scenario after its first three
    requests is a prefix of the ledger after all of them. *)
Lemma ledger_is_append_only_witness :
  exists rows,
    inventory_ledger (run (skipn 3 stock_scenario)
                          (run (firstn 3 stock_scenario) init_db))
    = inventory_ledger (run (firstn 3 stock_scenario) init_db) ++ rows.
Proof.
  apply (proj1 ledger_is_append_only
           (skipn 3 stock_scenario) (run (firstn 3 stock_scenario) init_db)).
  vm_compute. exact I.
Defined.

(** X2. In every state reached from the empty tables no two lots carry the
    same lot code and no two items the same item code, whatever items the
    lots belong to. *)
Theorem codes_stay_unique (rqs : list Request) :
  NoDup (map lot_code (inventory_lots (run rqs init_db)))
  /\ NoDup (map item_code (items (run rqs init_db))).
Proof.
  destruct (consistent_run rqs) as [Hk _].
  split; [exact (lot_codes_unique _ Hk)|exact (item_codes_unique _ Hk)].
Qed.

(** X4. The lot table and the ledger agree on what was received: in every
    reachable state the [RECEIVE] rows of a lot add up to the lot's
    [received_qty], and the [RECEIVE] rows of an item add up to the
    [received_qty] of the item's lots. *)
Theorem receipts_match_lots (rqs : list Request) :
  (forall l, In l (inventory_lots (run rqs init_db)) ->
             lot_total RECEIVE (inventory_ledger (run rqs init_db)) (lot_id l)
             = received_qty l)
  /\ (forall item,
         ledger_total RECEIVE (inventory_ledger (run rqs init_db)) item
         = lots_received (inventory_lots (run rqs init_db)) item).
Proof.
  destruct (consistent_run rqs) as [_ Hb]. split.
  - intros l Hl. pose proof (lot_received_once _ Hb) as H.
    rewrite Forall_forall in H. now apply H.
  - exact (item_received_lots _ Hb).
Qed.

(** X4, witness: lot B of the FIFO scenario. *)
Lemma receipts_match_lots_witness :
  lot_total RECEIVE (inventory_ledger (run fifo_scenario init_db)) 3%nat = 40.
Proof.
  apply (proj1 (receipts_match_lots fifo_scenario)
           {| lot_id := 3%nat; lot_item_id := 0%nat; lot_code := "B";
              received_qty := 40; qc_status := APPROVED |}).
  vm_compute. tauto.
Defined.

(** ** Reservations over time *)

Lemma find_app_some {A} (p : A -> bool) (l1 l2 : list A) (x : A) :
  find p l1 = Some x -> find p (l1 ++ l2) = Some x.
Proof.
  induction l1 as [|h t IH]; simpl; [discriminate|].
  destruct (p h); [trivial|exact IH].
Qed.

Lemma find_app_none {A} (p : A -> bool) (l1 l2 : list A) :
  find p l1 = None -> find p (l1 ++ l2) = find p l2.
Proof.
  induction l1 as [|h t IH]; simpl; [reflexivity|].
  destruct (p h); [discriminate|exact IH].
Qed.

Lemma find_close_other rid rid0 rs :
  find (fun x => Nat.eqb (res_id x) rid) (map (close_reservation rid0) rs)
  = option_map (close_reservation rid0)
               (find (fun x => Nat.eqb (res_id x) rid) rs).
Proof.
  induction rs as [|h rs IH]; simpl; [reflexivity|].
  assert (E : res_id (close_reservation rid0 h) = res_id h)
    by (unfold close_reservation; now destruct (Nat.eqb (res_id h) rid0)).
  rewrite E. destruct (Nat.eqb (res_id h) rid); [reflexivity|exact IH].
Qed.

Lemma res_evolves_trans a b c : res_evolves a b -> res_evolves b c -> res_evolves a c.
Proof.
  intros [->|[Ha ->]] [->|[Hb ->]].
  - now left.
  - right. now split.
  - right. now split.
  - discriminate.
Qed.

Lemma select_reservation_effect db db' rq rid r :
  effect db db' rq ->
  select_reservation rid db = Some r ->
  exists r', select_reservation rid db' = Some r' /\ res_evolves r r'.
Proof.
  unfold select_reservation.
  intros Heff Hsel.
  destruct Heff as
    [rq Et En
    |row Hcode Hid' Et En
    |it lot Hit Hq Hcode Hid' Hst Et En
    |it r0 Hit Hq Hav Hne Hid' Hst Et En
    |rid0 r0 Hsel0 Hst0 Hne Hle Hnan Et En
    |lid st l Hsel0 Hst Et En];
    after_effect Et; try (exists r; split; [assumption|now left]).
  - exists r. split; [now apply find_app_some|now left].
  - rewrite find_close_other, Hsel. cbn [option_map].
    eexists. split; [reflexivity|].
    unfold close_reservation. destruct (Nat.eqb (res_id r) rid0) eqn:E; [|now left].
    right. split; [|reflexivity].
    apply Nat.eqb_eq in E. destruct (find_some _ _ Hsel) as [_ Hid].
    apply Nat.eqb_eq in Hid. unfold select_reservation in Hsel0.
    rewrite Hid in E. subst rid0. rewrite Hsel in Hsel0.
    injection Hsel0 as <-. exact Hst0.
Qed.

Lemma select_reservation_run rqs :
  forall db rid r,
    quiescent db ->
    select_reservation rid db = Some r ->
    exists r', select_reservation rid (run rqs db) = Some r' /\ res_evolves r r'.
Proof.
  induction rqs as [|rq rqs IH]; intros db rid r Hq Hsel; simpl.
  - exists r. split; [assumption|now left].
  - destruct (handle_effect rq db Hq) as [Heff Hq'].
    destruct (select_reservation_effect _ _ _ rid r Heff Hsel)
      as (r1 & H1 & E1).
    destruct (IH _ _ _ Hq' H1) as (r2 & H2 & E2).
    exists r2. split; [assumption|]. eapply res_evolves_trans; eassumption.
Qed.

(** X7. A reservation, once made, keeps its item and its quantity through
    every later request, and its status changes at most once, from [OPEN] to
    [ISSUED]; an [ISSUED] reservation stays [ISSUED]. In the states reached
    from the empty tables every reservation is [OPEN] or [ISSUED]: nothing
    ever cancels one. *)
Theorem reservation_is_issued_at_most_once :
  (forall (rqs : list Request) (db : Database) (rid : uuid) (r : reservation_row),
      quiescent db ->
      select_reservation rid db = Some r ->
      exists r',
        select_reservation rid (run rqs db) = Some r'
        /\ res_item_id r' = res_item_id r
        /\ res_qty r' = res_qty r
        /\ (res_status r' = res_status r
            \/ (res_status r = OPEN /\ res_status r' = ISSUED)))
  /\ (forall (rqs : list Request) (r : reservation_row),
         In r (reservations (run rqs init_db)) ->
         res_status r = OPEN \/ res_status r = ISSUED).
Proof.
  split.
  - intros rqs db rid r Hq Hsel.
    destruct (select_reservation_run rqs db rid r Hq Hsel) as (r' & Hsel' & Hev).
    exists r'. split; [assumption|].
    destruct Hev as [->|[Hopen ->]]; cbn; auto.
  - intros rqs r Hr. destruct (consistent_run rqs) as [_ Hb].
    pose proof (no_cancelled _ Hb) as H. rewrite Forall_forall in H.
    specialize (H r Hr). destruct (res_status r); auto. contradiction.
Qed.

(** X7, witness: the reservation of the stock scenario before and after its
    issue and a further request. *)
Lemma reservation_is_issued_at_most_once_witness :
  exists r',
    select_reservation 3%nat (run (skipn 3 stock_scenario)
                                 (run (firstn 3 stock_scenario) init_db)) = Some r'
    /\ res_qty r' = 30.
Proof.
  destruct (proj1 reservation_is_issued_at_most_once
              (skipn 3 stock_scenario) (run (firstn 3 stock_scenario) init_db)
              3%nat
              {| res_id := 3%nat; res_item_id := 0%nat; res_qty := 30;
                 res_status := OPEN |})
    as (r' & Hsel & _ & Hq & _).
  - vm_compute. exact I.
  - vm_compute. reflexivity.
  - exists r'. split; [exact Hsel|exact Hq].
Defined.

(** ** Items *)

Lemma select_item_effect db db' rq id it :
  effect db db' rq -> select_item id db = Some it -> select_item id db' = Some it.
Proof.
  unfold select_item. intros Heff Hfound.
  destruct Heff as
    [rq Et En
    |row Hcode Hid' Et En
    |it0 lot Hit Hq Hcode Hid' Hst Et En
    |it0 r0 Hit Hq Hav Hne Hid' Hst Et En
    |rid0 r0 Hsel0 Hst0 Hne Hle Hnan Et En
    |lid st l Hsel0 Hst Et En];
    after_effect Et; try assumption.
  now apply find_app_some.
Qed.

Lemma select_item_run rqs :
  forall db id it,
    quiescent db ->
    select_item id db = Some it -> select_item id (run rqs db) = Some it.
Proof.
  induction rqs as [|rq rqs IH]; intros db id it Hq H; simpl; [exact H|].
  destruct (handle_effect rq db Hq) as [Heff Hq'].
  apply IH; [exact Hq'|]. eapply select_item_effect; eassumption.
Qed.

Lemma find_unused {A} (f : A -> nat) (n : nat) (l : list A) :
  Forall (fun x => (f x < n)%nat) l -> find (fun x => Nat.eqb (f x) n) l = None.
Proof.
  induction 1 as [|x l Hx _ IH]; simpl; [reflexivity|].
  destruct (Nat.eqb (f x) n) eqn:E; [apply Nat.eqb_eq in E; lia|exact IH].
Qed.

(** X10. An item created in a reachable state can be read back under the
    identifier [create_item] returned, with the code, name and QC flag it was
    given, and reads the same after any further requests, which leaves the
    connection as it was; its code is refused with [DUPLICATE_ITEM_CODE] from
    then on, whatever name or flag comes with it, and the refusal writes to
    no table. *)
Theorem created_item_reads_back
    (rqs : list Request) (code name : string) (qc : bool)
    (row : item_row) (db' : Database) :
  create_item code name qc (run rqs init_db) = (inr row, db') ->
  item_code row = code /\ item_name row = name /\ qc_required row = qc
  /\ (forall later,
         get_item_endpoint (item_id row) (run later db')
         = (inr row, run later db'))
  /\ (forall later name' qc',
         fst (create_item code name' qc' (run later db'))
         = inl DUPLICATE_ITEM_CODE
         /\ tables (snd (create_item code name' qc' (run later db')))
            = tables (run later db')).
Proof.
  destruct (consistent_run rqs) as [Hk _].
  remember (run rqs init_db) as db eqn:Hdb. clear Hdb.
  rewrite create_item_eq.
  destruct (existsb _ _) eqn:Hnew; [discriminate|].
  cbv zeta. intros [= <- <-]. cbn [item_code item_name qc_required item_id].
  set (row := {| item_id := uuid4_next db; item_code := code;
                 item_name := name; qc_required := qc |}).
  set (db1 := {| tables := add_item row db; journal := None;
                 uuid4_next := S (uuid4_next db) |}).
  assert (Hsel : forall later,
             select_item (uuid4_next db) (run later db1) = Some row).
  { intros later. apply select_item_run; [exact I|].
    unfold select_item. cbn [items db1 tables add_item].
    rewrite find_app_none by (apply find_unused, (item_ids_used _ Hk)).
    cbn. now rewrite Nat.eqb_refl. }
  repeat split.
  - intros later. rewrite get_item_endpoint_eq. now rewrite Hsel.
  - rewrite create_item_eq. cbv zeta.
    specialize (Hsel later). apply find_some in Hsel. destruct Hsel as [Hin _].
    assert (E : existsb (fun i => String.eqb (item_code i) code)
                        (items (run later db1)) = true).
    { apply existsb_exists. exists row. split; [exact Hin|].
      now apply String.eqb_eq. }
    now rewrite E.
  - rewrite create_item_eq. cbv zeta.
    specialize (Hsel later). apply find_some in Hsel. destruct Hsel as [Hin _].
    assert (E : existsb (fun i => String.eqb (item_code i) code)
                        (items (run later db1)) = true).
    { apply existsb_exists. exists row. split; [exact Hin|].
      now apply String.eqb_eq. }
    now rewrite E.
Qed.

(** X10, witness: the item of the stock scenario. *)
Lemma created_item_reads_back_witness :
  get_item_endpoint 0%nat
    (run (skipn 1 stock_scenario) (run (firstn 1 stock_scenario) init_db))
  = (inr {| item_id := 0%nat; item_code := "RM-003";
            item_name := "Copper Wire"; qc_required := false |},
     run (skipn 1 stock_scenario) (run (firstn 1 stock_scenario) init_db)).
Proof.
  refine (proj1 (proj2 (proj2 (proj2
           (created_item_reads_back [] "RM-003" "Copper Wire" false
              {| item_id := 0%nat; item_code := "RM-003";
                 item_name := "Copper Wire"; qc_required := false |}
              (run (firstn 1 stock_scenario) init_db) _))))
           (skipn 1 stock_scenario)).
  vm_compute. reflexivity.
Defined.

(** ** Rows refer to rows that exist *)

Lemma known_item_effect db db' rq item :
  effect db db' rq -> known_item db item -> known_item db' item.
Proof.
  unfold known_item. intros Heff Hk.
  destruct (select_item item db) as [it|] eqn:E; [|contradiction].
  now rewrite (select_item_effect _ _ _ _ _ Heff E).
Qed.

Lemma known_lot_effect db db' rq lot item :
  effect db db' rq -> known_lot db lot item -> known_lot db' lot item.
Proof.
  unfold known_lot. intros Heff (x & Hx & Hid & Hit).
  destruct Heff as
    [rq Et En
    |row Hcode Hid' Et En
    |it0 lot0 Hit0 Hq Hcode Hid' Hst Et En
    |it0 r0 Hit0 Hq Hav Hne Hid' Hst Et En
    |rid0 r0 Hsel0 Hst0 Hne Hle Hnan Et En
    |lid st l Hsel0 Hst Et En];
    after_effect Et; try (exists x; now repeat split).
  - exists x. repeat split; try assumption. apply in_or_app. now left.
  - exists (if Nat.eqb (lot_id x) lid then set_qc_status st x else x).
    split; [apply in_map_iff; now exists x|].
    destruct (Nat.eqb (lot_id x) lid); now split.
Qed.

Lemma known_reservation_effect db db' rq rid item :
  effect db db' rq -> known_reservation db rid item -> known_reservation db' rid item.
Proof.
  unfold known_reservation. intros Heff (x & Hx & Hid & Hit).
  destruct Heff as
    [rq Et En
    |row Hcode Hid' Et En
    |it0 lot0 Hit0 Hq Hcode Hid' Hst Et En
    |it0 r0 Hit0 Hq Hav Hne Hid' Hst Et En
    |rid0 r0 Hsel0 Hst0 Hne Hle Hnan Et En
    |lid st l Hsel0 Hst Et En];
    after_effect Et; try (exists x; now repeat split).
  - exists x. repeat split; try assumption. apply in_or_app. now left.
  - exists (close_reservation rid0 x). split; [now apply in_map|].
    unfold close_reservation. destruct (Nat.eqb (res_id x) rid0); now split.
Qed.

Lemma row_refs_effect db db' rq e :
  effect db db' rq -> row_refs db e -> row_refs db' e.
Proof.
  intros Heff (Hi & Hl & Hr). repeat split.
  - now apply (known_item_effect db _ rq).
  - intros lot E. apply (known_lot_effect db _ rq); auto.
  - intros rid E. apply (known_reservation_effect db _ rq); auto.
Qed.

Lemma refs_ok_init : refs_ok init_db.
Proof. constructor; constructor. Qed.

Lemma refs_ok_effect db db' rq : refs_ok db -> effect db db' rq -> refs_ok db'.
Proof.
  intros [Hl Hr Hg] Heff.
  assert (Hl' : Forall (fun l => known_item db' (lot_item_id l)) (inventory_lots db))
    by (revert Hl; apply Forall_impl; intros l; eapply known_item_effect, Heff).
  assert (Hr' : Forall (fun r => known_item db' (res_item_id r)) (reservations db))
    by (revert Hr; apply Forall_impl; intros r; eapply known_item_effect, Heff).
  assert (Hg' : Forall (row_refs db') (inventory_ledger db))
    by (revert Hg; apply Forall_impl; intros e; eapply row_refs_effect, Heff).
  pose proof Heff as Heff0.
  destruct Heff as
    [rq Et En
    |row Hcode Hid Et En
    |it lot Hit Hq Hcode Hid Hst Et En
    |it r Hit Hq Hav Hne Hid Hst Et En
    |rid r Hsel Hst Hne Hle Hnan Et En
    |lid st l Hsel Hst Et En].
  all: pose proof (f_equal inventory_lots Et) as El;
    pose proof (f_equal reservations Et) as Er;
    pose proof (f_equal inventory_ledger Et) as Eg;
    cbn [items inventory_lots inventory_ledger reservations
         add_item add_lot add_reservation issued_tables] in El, Er, Eg.
  - constructor; rewrite ?El, ?Er, ?Eg; assumption.
  - constructor; rewrite ?El, ?Er, ?Eg; assumption.
  - (* receive *)
    assert (Hitem : known_item db' (lot_item_id lot)).
    { eapply known_item_effect; [exact Heff0|]. unfold known_item.
      now rewrite Hit. }
    constructor; rewrite ?El, ?Er, ?Eg;
      try assumption.
    + apply Forall_app. split; [assumption|]. now repeat constructor.
    + apply Forall_app. split; [assumption|]. constructor; [|constructor].
      repeat split; cbn; [exact Hitem| |discriminate].
      intros x [= <-]. exists lot. rewrite El.
      repeat split. apply in_or_app. right. now left.
  - (* reserve *)
    assert (Hitem : known_item db' (res_item_id r)).
    { eapply known_item_effect; [exact Heff0|]. unfold known_item.
      now rewrite Hit. }
    constructor; rewrite ?El, ?Er, ?Eg;
      try assumption.
    + apply Forall_app. split; [assumption|]. now repeat constructor.
    + apply Forall_app. split; [assumption|]. constructor; [|constructor].
      repeat split; cbn; [exact Hitem|discriminate|].
      intros x [= <-]. exists r. rewrite Er.
      repeat split. apply in_or_app. right. now left.
  - (* issue *)
    unfold select_reservation in Hsel. apply find_some in Hsel.
    destruct Hsel as [Hrin Hrid]. apply Nat.eqb_eq in Hrid.
    assert (Hitem : known_item db' (res_item_id r))
      by (rewrite Forall_forall in Hr'; now apply Hr').
    assert (Hres : known_reservation db' rid (res_item_id r)).
    { eapply known_reservation_effect; [exact Heff0|]. now exists r. }
    constructor; rewrite ?El, ?Er, ?Eg;
      try assumption.
    + apply Forall_forall. intros x Hx. apply in_map_iff in Hx.
      destruct Hx as (y & <- & Hy). rewrite Forall_forall in Hr'.
      specialize (Hr' y Hy). unfold close_reservation.
      destruct (Nat.eqb (res_id y) rid); exact Hr'.
    + apply Forall_app. split; [assumption|]. apply Forall_app. split.
      * assert (Hrows : forall given n,
                   Forall (fun il => known_lot db' (il_lot_id il) (res_item_id r))
                          given ->
                   Forall (row_refs db')
                          (issue_rows (res_item_id r) rid n given)).
        { induction given as [|il given IH]; intros n Hall; simpl;
            [constructor|].
          inversion Hall as [|? ? Hil Hrest]; subst. constructor; [|now apply IH].
          repeat split; cbn; [exact Hitem| |].
          - intros x [= <-]. exact Hil.
          - intros x [= <-]. exact Hres. }
        apply Hrows. apply Forall_forall. intros il Hil.
        destruct (allocate_In _ _ _ (get_available_lots_positive _ _) Hil)
          as (d & Hd & -> & _).
        apply get_available_lots_In in Hd. destruct Hd as (x & Hx & Hs & ->).
        apply lot_selected_true in Hs. destruct Hs as (Hxi & _).
        eapply known_lot_effect; [exact Heff0|]. now exists x.
      * constructor; [|constructor].
        repeat split; cbn; [exact Hitem|discriminate|].
        intros x [= <-]. exact Hres.
  - (* QC decision *)
    constructor; rewrite ?El, ?Er, ?Eg; try assumption.
    apply Forall_forall. intros x Hx. apply in_map_iff in Hx.
    destruct Hx as (y & <- & Hy). rewrite Forall_forall in Hl'.
    specialize (Hl' y Hy). destruct (Nat.eqb (lot_id y) lid); exact Hl'.
Qed.

Lemma refs_ok_run rqs : refs_ok (run rqs init_db).
Proof.
  apply invariant_run; [exact refs_ok_effect|exact quiescent_init|exact refs_ok_init].
Qed.

(** X13. The handlers never write a dangling reference: in every reachable
    state each lot and each reservation belongs to an existing item, and each
    ledger row names an existing item and, where it names a lot or a
    reservation, one that exists and belongs to the same item. *)
Theorem references_never_dangle (rqs : list Request) :
  let db := run rqs init_db in
  (forall l, In l (inventory_lots db) -> known_item db (lot_item_id l))
  /\ (forall r, In r (reservations db) -> known_item db (res_item_id r))
  /\ (forall e, In e (inventory_ledger db) -> row_refs db e).
Proof.
  cbv zeta. destruct (refs_ok_run rqs) as [Hl Hr Hg].
  rewrite Forall_forall in Hl, Hr, Hg. auto.
Qed.

(** X13, witness: the first [ISSUE] row of the FIFO scenario names lot A and
    the reservation, both of the row's item. *)
Lemma references_never_dangle_witness :
  row_refs (run fifo_scenario init_db)
    {| led_id := 9%nat; led_item_id := 0%nat; led_lot_id := Some 1%nat;
       txn_type := ISSUE; led_qty := 30; led_reservation_id := Some 7%nat |}.
Proof.
  apply (proj2 (proj2 (references_never_dangle fifo_scenario))).
  vm_compute. tauto.
Defined.

(** ** [verify_logic.py] next to [app.py] *)

Lemma le_0_not_positive x : (x <=? 0) = true -> (0 <? x) = false /\ is_nan x = false.
Proof.
  rewrite leb_spec, ltb_spec, is_nan_spec.
  change (Prim2SF 0) with (S754_zero false).
  unfold SFleb, SFltb, SFcompare.
  destruct (Prim2SF x) as [s|s| |s m e]; try discriminate; auto;
    destruct s; try discriminate; auto.
Qed.

Lemma positive_not_le_0 x : (0 <? x) = true -> (x <=? 0) = false.
Proof.
  rewrite leb_spec, ltb_spec.
  change (Prim2SF 0) with (S754_zero false).
  unfold SFleb, SFltb, SFcompare.
  destruct (Prim2SF x) as [s|s| |s m e]; try discriminate; auto;
    destruct s; try discriminate; auto.
Qed.

Lemma verify_receive_inventory_eq item code qty db :
  VerifyLogic.receive_inventory item code qty db =
  match select_item item db with
  | None => (inl TypeError, db)
  | Some it =>
    let status := if qc_required it then QUARANTINE else APPROVED in
    let begun := match journal db with Some t => t | None => tables db end in
    if is_nan qty
    then (inl (IntegrityError NOT_NULL_qty),
          {| tables := tables db; journal := Some begun;
             uuid4_next := S (S (uuid4_next db)) |})
    else if existsb (fun l => String.eqb (lot_code l) code) (inventory_lots db)
    then (inl (IntegrityError UNIQUE_lots_lot_code),
          {| tables := tables db; journal := Some begun;
             uuid4_next := S (S (uuid4_next db)) |})
    else (inr (uuid4_next db, status),
          {| tables :=
               add_lot {| lot_id := uuid4_next db; lot_item_id := item;
                          lot_code := code; received_qty := qty;
                          qc_status := status |}
                       {| led_id := S (uuid4_next db); led_item_id := item;
                          led_lot_id := Some (uuid4_next db); txn_type := RECEIVE;
                          led_qty := qty; led_reservation_id := None |} db;
             journal := None;
             uuid4_next := S (S (uuid4_next db)) |})
  end.
Proof.
  unfold VerifyLogic.receive_inventory, bind, query, execute, insert_lot,
    insert_ledger, commit, uuid4, ret, raise, set_journal, set_tables.
  destruct (select_item item db) as [it|]; [|reflexivity].
  cbn. destruct (journal db) as [t|] eqn:J; cbn;
    destruct (is_nan qty) eqn:Hn; try reflexivity;
    destruct (existsb _ _); try reflexivity; cbn; rewrite ?Hn; reflexivity.
Qed.

(** X17. The [receive_inventory] of [verify_logic.py] next to the handler of
    [app.py].  Where the handler books a lot the script books the same lot,
    under the same identifier and QC status, and leaves the same state.  Where
    the handler answers [ITEM_NOT_FOUND] the script dies on [dict(None)] with
    a [TypeError] and writes nothing; where the handler answers
    [DUPLICATE_LOT_CODE] the script raises the [IntegrityError] of the
    [UNIQUE] constraint on [lot_code] and the tables stay as they are.  The
    script does not ask for a positive quantity: a quantity [<= 0] that the
    handler turns down with [REQUEST_VALIDATION_ERROR] is booked by the script
    as a lot of that quantity. *)
Theorem verify_logic_receive_agrees (db : Database) (item : uuid) (code : string)
    (qty : float) :
  (forall resp db',
      receive_inventory item code qty db = (inr resp, db') ->
      VerifyLogic.receive_inventory item code qty db
      = (inr (rcv_lot_id resp, rcv_qc_status resp), db'))
  /\ (fst (receive_inventory item code qty db) = inl ITEM_NOT_FOUND ->
      VerifyLogic.receive_inventory item code qty db = (inl TypeError, db))
  /\ (fst (receive_inventory item code qty db) = inl DUPLICATE_LOT_CODE ->
      fst (VerifyLogic.receive_inventory item code qty db)
      = inl (IntegrityError UNIQUE_lots_lot_code)
      /\ tables (snd (VerifyLogic.receive_inventory item code qty db)) = tables db)
  /\ ((qty <=? 0) = true ->
      select_item item db <> None ->
      existsb (fun l => String.eqb (lot_code l) code) (inventory_lots db) = false ->
      receive_inventory item code qty db = (inl REQUEST_VALIDATION_ERROR, db)
      /\ exists lot status db',
          VerifyLogic.receive_inventory item code qty db = (inr (lot, status), db')
          /\ inventory_lots db'
             = inventory_lots db
               ++ [{| lot_id := lot; lot_item_id := item; lot_code := code;
                      received_qty := qty; qc_status := status |}]).
Proof.
  rewrite receive_inventory_eq, verify_receive_inventory_eq.
  repeat split.
  - intros resp db'.
    destruct (0 <? qty) eqn:Hq; [|discriminate].
    rewrite (positive_not_nan _ Hq).
    destruct (select_item item db) as [it|]; [|discriminate].
    destruct (journal db) as [t|]; [discriminate|].
    cbv zeta. destruct (existsb _ _); [discriminate|].
    intros [= <- <-]. reflexivity.
  - destruct (0 <? qty) eqn:Hq; [|discriminate].
    destruct (select_item item db) as [it|]; [|reflexivity].
    destruct (journal db) as [t|]; [discriminate|].
    cbv zeta. destruct (existsb _ _); discriminate.
  - destruct (0 <? qty) eqn:Hq; [|discriminate].
    rewrite (positive_not_nan _ Hq).
    destruct (select_item item db) as [it|]; [|discriminate].
    destruct (journal db) as [t|]; [discriminate|].
    cbv zeta. destruct (existsb _ _); [reflexivity|discriminate].
  - destruct (0 <? qty) eqn:Hq; [|discriminate].
    rewrite (positive_not_nan _ Hq).
    destruct (select_item item db) as [it|]; [|discriminate].
    destruct (journal db) as [t|]; [discriminate|].
    cbv zeta. destruct (existsb _ _); [reflexivity|discriminate].
  - destruct (le_0_not_positive _ H) as [-> _]. reflexivity.
  - destruct (le_0_not_positive _ H) as [_ Hn].
    destruct (select_item item db) as [it|]; [|contradiction].
    cbv zeta. rewrite Hn, H1. eexists _, _, _. split; reflexivity.
Qed.

(** X17, witness: a quantity of [-5] for a known item under a free code. *)
Lemma verify_logic_receive_agrees_witness :
  receive_inventory 0%nat "LOT-NEG" (-5) (run stock_scenario init_db)
  = (inl REQUEST_VALIDATION_ERROR, run stock_scenario init_db)
  /\ exists lot status db',
      VerifyLogic.receive_inventory 0%nat "LOT-NEG" (-5) (run stock_scenario init_db)
      = (inr (lot, status), db')
      /\ inventory_lots db'
         = inventory_lots (run stock_scenario init_db)
           ++ [{| lot_id := lot; lot_item_id := 0%nat; lot_code := "LOT-NEG";
                  received_qty := -5; qc_status := status |}].
Proof.
  apply (proj2 (proj2 (proj2 (verify_logic_receive_agrees
                                (run stock_scenario init_db) 0%nat "LOT-NEG" (-5))))).
  - reflexivity.
  - vm_compute. discriminate.
  - reflexivity.
Defined.

Lemma count_approved_lots_zero (t : Tables) item :
  VerifyLogic.count_approved_lots t item = 0%nat <->
  forall l, In l (inventory_lots t) -> lot_item_id l = item ->
            qc_status l <> APPROVED.
Proof.
  unfold VerifyLogic.count_approved_lots. split.
  - intros H l Hl Hi Hs.
    assert (Hin : In l (filter (fun l => Nat.eqb (lot_item_id l) item
                                  && QCStatus_eqb (qc_status l) APPROVED)
                               (inventory_lots t))).
    { apply filter_In. split; [exact Hl|].
      rewrite Hi, Hs, Nat.eqb_refl. reflexivity. }
    destruct (filter _ _); [contradiction|discriminate].
  - intros H.
    destruct (filter _ _) as [|x xs] eqn:E; [reflexivity|exfalso].
    assert (Hx : In x (filter (fun l => Nat.eqb (lot_item_id l) item
                                 && QCStatus_eqb (qc_status l) APPROVED)
                              (inventory_lots t)))
      by (rewrite E; now left).
    apply filter_In in Hx. destruct Hx as [Hx Hc].
    apply andb_true_iff in Hc. destruct Hc as [Hi Hs].
    apply Nat.eqb_eq in Hi. apply QCStatus_eqb_eq in Hs.
    exact (H x Hx Hi Hs).
Qed.

Lemma verify_reserve_inventory_eq item qty db :
  VerifyLogic.reserve_inventory item qty db =
  if available (calculate_stock db item) <? qty
  then (inl (ValueError INSUFFICIENT_STOCK), db)
  else if Nat.eqb (VerifyLogic.count_approved_lots db item) 0
  then (inl (ValueError NO_QC_APPROVED_LOT), db)
  else if is_nan qty
  then (inl (IntegrityError NOT_NULL_qty),
        {| tables := tables db;
           journal := Some match journal db with Some t => t | None => tables db end;
           uuid4_next := S (uuid4_next db) |})
  else (inr (uuid4_next db),
        {| tables :=
             add_reservation
               {| res_id := uuid4_next db; res_item_id := item;
                  res_qty := qty; res_status := OPEN |}
               {| led_id := S (uuid4_next db); led_item_id := item;
                  led_lot_id := None; txn_type := RESERVE; led_qty := qty;
                  led_reservation_id := Some (uuid4_next db) |} db;
           journal := None;
           uuid4_next := S (S (uuid4_next db)) |}).
Proof.
  unfold VerifyLogic.reserve_inventory, bind, query, execute,
    insert_reservation, insert_ledger, commit, uuid4, ret, raise,
    set_journal, set_tables.
  destruct (available _ <? qty); [reflexivity|].
  destruct (Nat.eqb _ 0); [reflexivity|].
  cbn. destruct (journal db) as [t|] eqn:J; cbn;
    destruct (is_nan qty) eqn:Hn; try reflexivity; cbn; rewrite ?Hn; reflexivity.
Qed.

Lemma verify_issue_inventory_eq rid (db : Database) :
  (forall r, select_reservation rid db = Some r -> is_nan (res_qty r) = false) ->
  VerifyLogic.issue_inventory rid db =
  match select_reservation rid db with
  | None => (inl (ValueError RESERVATION_NOT_FOUND), db)
  | Some r =>
    if negb (ReservationStatus_eqb (res_status r) OPEN)
    then (inl (ValueError RESERVATION_ALREADY_ISSUED), db)
    else
      match get_available_lots db (res_item_id r) with
      | [] => (inl (ValueError NO_QC_APPROVED_LOT), db)
      | _ :: _ =>
        if sumF (map ld_available (get_available_lots db (res_item_id r)))
           <? res_qty r
        then (inl (ValueError INSUFFICIENT_STOCK), db)
        else
          let given :=
            allocate (get_available_lots db (res_item_id r)) (res_qty r) in
          (inr (map (fun il => (il_lot_code il, il_qty il)) given),
           {| tables := issued_tables rid r (uuid4_next db) db;
              journal := None;
              uuid4_next := S (List.length given + uuid4_next db) |})
      end
  end.
Proof.
  intros Hnan. unfold VerifyLogic.issue_inventory.
  unfold bind at 1. unfold query at 1.
  destruct (select_reservation rid db) as [r|]; [|reflexivity].
  specialize (Hnan r eq_refl).
  destruct (negb _); [reflexivity|].
  cbv zeta. unfold bind at 1. unfold query at 1.
  destruct (get_available_lots db (res_item_id r)) as [|d0 ds] eqn:Hlots;
    [reflexivity|].
  rewrite <- Hlots.
  assert (Hpos := get_available_lots_positive db (res_item_id r)).
  clear Hlots.
  destruct (_ <? res_qty r); [reflexivity|].
  unfold bind at 1. rewrite (verify_issue_loop_spec _ _ _ Hpos).
  rewrite (issue_from_lots_spec _ _ _ Hpos).
  cbn [app snd].
  unfold bind, execute, update_reservation_status, uuid4, insert_ledger,
    commit, raise, ret, set_journal, set_tables.
  cbn [journal tables uuid4_next led_qty]. rewrite Hnan.
  destruct (allocate _ _) as [|g gs] eqn:Hg;
    cbn [journal tables uuid4_next led_qty];
    destruct (journal db) as [t|] eqn:J;
    cbn [journal tables uuid4_next led_qty];
    cbn; rewrite ?app_nil_r; try reflexivity;
    unfold issued_tables; rewrite Hg; cbn; rewrite <- ?app_assoc; reflexivity.
Qed.

Lemma reservation_qty_not_nan rqs rid r :
  select_reservation rid (run rqs init_db) = Some r -> is_nan (res_qty r) = false.
Proof.
  intros H. unfold select_reservation in H. apply find_some in H.
  destruct H as [Hin _].
  destruct (consistent_run rqs) as [_ Hb].
  pose proof (reservations_positive _ Hb) as Hp.
  rewrite Forall_forall in Hp. apply positive_not_nan, Hp, Hin.
Qed.

(** X15. The [issue_inventory] of [verify_logic.py] is the [issue_inventory]
    of [app.py] on a connection with no transaction left open, for a
    reservation whose quantity is a number: both refuse with the same error
    or both succeed, they leave the same state, and the script's
    [lots_issued] is the handler's with the [lot_id] dropped.  In the states
    the handlers reach every reservation quantity is a number, so there the
    two agree on every reservation identifier. *)
Theorem verify_logic_issue_agrees :
  (forall (db : Database) (rid : uuid),
      journal db = None ->
      (forall r, select_reservation rid db = Some r -> is_nan (res_qty r) = false) ->
      VerifyLogic.issue_inventory rid db
      = as_script_outcome
          (fun resp => map (fun il => (il_lot_code il, il_qty il))
                           (iss_lots_issued resp))
          (issue_inventory rid db))
  /\ (forall (rqs : list Request) (rid : uuid),
         journal (run rqs init_db) = None ->
         VerifyLogic.issue_inventory rid (run rqs init_db)
         = as_script_outcome
             (fun resp => map (fun il => (il_lot_code il, il_qty il))
                              (iss_lots_issued resp))
             (issue_inventory rid (run rqs init_db))).
Proof.
  assert (G : forall (db : Database) (rid : uuid),
             journal db = None ->
             (forall r, select_reservation rid db = Some r ->
                        is_nan (res_qty r) = false) ->
             VerifyLogic.issue_inventory rid db
             = as_script_outcome
                 (fun resp => map (fun il => (il_lot_code il, il_qty il))
                                  (iss_lots_issued resp))
                 (issue_inventory rid db)).
  { intros db rid J Hnan.
    rewrite (verify_issue_inventory_eq rid db Hnan), issue_inventory_eq, J.
    rewrite (set_journal_same db None J). unfold as_script_outcome.
    destruct (select_reservation rid db) as [r|] eqn:Hr; [|reflexivity].
    destruct (negb _); [reflexivity|].
    destruct (get_available_lots db (res_item_id r)) as [|d ds] eqn:Hlots;
      [reflexivity|].
    rewrite <- Hlots.
    destruct (_ <? res_qty r); [reflexivity|].
    cbv zeta. rewrite (Hnan r eq_refl). reflexivity. }
  split; [exact G|].
  intros rqs rid J. apply G; [exact J|].
  intros r. apply reservation_qty_not_nan.
Qed.

(** X15, witness: the open reservation of 80 of the FIFO scenario. *)
Lemma verify_logic_issue_agrees_witness :
  VerifyLogic.issue_inventory 7%nat (run (firstn 5 fifo_scenario) init_db)
  = as_script_outcome
      (fun resp => map (fun il => (il_lot_code il, il_qty il))
                       (iss_lots_issued resp))
      (issue_inventory 7%nat (run (firstn 5 fifo_scenario) init_db)).
Proof.
  apply (proj2 verify_logic_issue_agrees (firstn 5 fifo_scenario) 7%nat).
  reflexivity.
Defined.

(** X16. The [reserve_inventory] of [verify_logic.py] checks less than the
    handler of [app.py].  It grants a request exactly when [available] is not
    below the quantity, the quantity is a number, and the item has some
    [APPROVED] lot, used up or not; it asks neither for a positive quantity
    nor for an existing item.  So whatever the handler grants the script
    grants, with the same state after; and where the handler, on a connection
    with no transaction left open, refuses a valid request with
    [NO_QC_APPROVED_LOT] because every [APPROVED] lot is used up, the script
    writes the reservation. *)
Theorem verify_logic_reserve_checks_less (db : Database) (item : uuid) (qty : float) :
  ((exists rid db', VerifyLogic.reserve_inventory item qty db = (inr rid, db'))
   <-> ((available (calculate_stock db item) <? qty) = false
        /\ is_nan qty = false
        /\ exists l, In l (inventory_lots db) /\ lot_item_id l = item
                     /\ qc_status l = APPROVED))
  /\ (forall resp db',
         reserve_inventory item qty db = (inr resp, db') ->
         VerifyLogic.reserve_inventory item qty db
         = (inr (rsv_reservation_id resp), db'))
  /\ (forall l,
         journal db = None ->
         In l (inventory_lots db) -> lot_item_id l = item ->
         qc_status l = APPROVED ->
         approved_lots_exhausted db item ->
         (0 <? qty) = true ->
         (available (calculate_stock db item) <? qty) = false ->
         select_item item db <> None ->
         reserve_inventory item qty db = (inl NO_QC_APPROVED_LOT, db)
         /\ exists rid db',
             VerifyLogic.reserve_inventory item qty db = (inr rid, db')).
Proof.
  assert (Hgrant :
            (available (calculate_stock db item) <? qty) = false ->
            is_nan qty = false ->
            (exists l, In l (inventory_lots db) /\ lot_item_id l = item
                       /\ qc_status l = APPROVED) ->
            exists rid db', VerifyLogic.reserve_inventory item qty db = (inr rid, db')).
  { intros Hav Hn (l & Hl & Hi & Hs). rewrite verify_reserve_inventory_eq, Hav, Hn.
    destruct (Nat.eqb (VerifyLogic.count_approved_lots db item) 0) eqn:E;
      [|eauto].
    apply Nat.eqb_eq in E.
    now destruct (proj1 (count_approved_lots_zero db item) E l Hl Hi). }
  split; [|split].
  - split; [|intros (Hav & Hn & Hl); now apply Hgrant].
    intros (rid & db' & H). rewrite verify_reserve_inventory_eq in H.
    destruct (available _ <? qty) eqn:Hav; [discriminate|].
    split; [reflexivity|].
    destruct (Nat.eqb (VerifyLogic.count_approved_lots db item) 0) eqn:E;
      [discriminate|].
    destruct (is_nan qty); [discriminate|]. split; [reflexivity|].
    apply Nat.eqb_neq in E.
    unfold VerifyLogic.count_approved_lots in E.
    destruct (filter _ _) as [|x xs] eqn:Ef; [contradiction|].
    assert (Hx : In x (filter (fun l => Nat.eqb (lot_item_id l) item
                                 && QCStatus_eqb (qc_status l) APPROVED)
                              (inventory_lots db)))
      by (rewrite Ef; now left).
    apply filter_In in Hx. destruct Hx as [Hx Hc].
    apply andb_true_iff in Hc. destruct Hc as [Hi Hs].
    apply Nat.eqb_eq in Hi. apply QCStatus_eqb_eq in Hs. eauto.
  - intros resp db'. rewrite reserve_inventory_eq.
    destruct (0 <? qty) eqn:Hq; [|discriminate].
    destruct (journal db) as [t|] eqn:J; [discriminate|].
    destruct (select_item item db) as [it|]; [|discriminate].
    destruct (available _ <? qty) eqn:Hav; [discriminate|].
    destruct (get_available_lots db item) as [|d ds] eqn:Hlots; [discriminate|].
    intros [= <- <-]. rewrite verify_reserve_inventory_eq, Hav.
    rewrite (positive_not_nan _ Hq).
    destruct (Nat.eqb (VerifyLogic.count_approved_lots db item) 0) eqn:E;
      [|reflexivity].
    exfalso. apply Nat.eqb_eq in E.
    assert (Hd : In d (get_available_lots db item)) by (rewrite Hlots; now left).
    apply get_available_lots_In in Hd. destruct Hd as (l & Hl & Hs & _).
    apply lot_selected_true in Hs. destruct Hs as (Hi & Hst & _).
    exact (proj1 (count_approved_lots_zero db item) E l Hl Hi Hst).
  - intros l J Hl Hi Hs Hex Hq Hav Hit. split.
    + rewrite reserve_inventory_eq, Hq, J.
      destruct (select_item item db) as [it|]; [|contradiction].
      rewrite Hav.
      assert (Hnil : get_available_lots db item = []).
      { apply get_available_lots_nil. intros x Hx.
        destruct (lot_selected db item x) eqn:E; [|reflexivity].
        apply lot_selected_true in E. destruct E as (Hxi & Hxs & Hpos).
        rewrite (Hex x Hx Hxi Hxs) in Hpos. discriminate. }
      rewrite Hnil. now rewrite (set_journal_same db None J).
    + apply Hgrant; eauto using positive_not_nan.
Qed.

(** X16, witness: the fully issued lot of the exhausted scenario next to
    50 quarantined units; the handler refuses 5, the script grants them. *)
Lemma verify_logic_reserve_checks_less_witness :
  reserve_inventory 0%nat 5 (run exhausted_with_quarantine_scenario init_db)
  = (inl NO_QC_APPROVED_LOT, run exhausted_with_quarantine_scenario init_db)
  /\ exists rid db',
      VerifyLogic.reserve_inventory 0%nat 5
        (run exhausted_with_quarantine_scenario init_db) = (inr rid, db').
Proof.
  apply (proj2 (proj2 (verify_logic_reserve_checks_less
                         (run exhausted_with_quarantine_scenario init_db) 0%nat 5))
           {| lot_id := 1%nat; lot_item_id := 0%nat; lot_code := "LOT-001";
              received_qty := 10; qc_status := APPROVED |}).
  - reflexivity.
  - vm_compute. now left.
  - reflexivity.
  - reflexivity.
  - intros l Hin _ Hst. vm_compute in Hin.
    destruct Hin as [<-|[<-|[]]]; [vm_compute; reflexivity|discriminate].
  - reflexivity.
  - vm_compute. reflexivity.
  - vm_compute. discriminate.
Defined.

(** ** The issue decision *)

Lemma allocate_nonempty d ds q :
  (q <=? 0) = false -> allocate (d :: ds) q <> [].
Proof. intros H. cbn [allocate]. rewrite H. discriminate. Qed.



(** ** A transaction left open *)

(** X18. A request that fails between [BEGIN IMMEDIATE] (or the first
    [INSERT]) and a [rollback] leaves the connection inside a transaction, and
    the next request that begins one cannot.  Served on a connection with no
    transaction open, exactly three answers leave one open: a
    [DUPLICATE_ITEM_CODE] of [create_item], an [ITEM_NOT_FOUND] of
    [reserve_inventory] and a [LOT_NOT_FOUND] of [update_lot_qc_status].  On a
    connection with a transaction open, [issue_inventory], a
    [reserve_inventory] with a positive quantity, an [update_lot_qc_status]
    with a status other than [QUARANTINE] and a [receive_inventory] with a
    positive quantity for an existing item all answer [INTERNAL_ERROR]; the
    [rollback] of their handler closes the transaction, so that the request
    after them is served again. *)
Theorem open_transaction_fails_next_request (db : Database) :
  (forall rq,
      journal db = None ->
      in_transaction (snd (handle rq db))
      = match rq, fst (handle rq db) with
        | CreateItem _ _ _, inl DUPLICATE_ITEM_CODE => true
        | ReserveInventory _ _, inl ITEM_NOT_FOUND => true
        | UpdateLotQcStatus _ _, inl LOT_NOT_FOUND => true
        | _, _ => false
        end)
  /\ (forall t,
         journal db = Some t ->
         (forall rid,
             issue_inventory rid db
             = (inl INTERNAL_ERROR,
                {| tables := t; journal := None; uuid4_next := uuid4_next db |}))
         /\ (forall item qty,
                (0 <? qty) = true ->
                reserve_inventory item qty db
                = (inl INTERNAL_ERROR,
                   {| tables := t; journal := None; uuid4_next := uuid4_next db |}))
         /\ (forall lot st,
                st <> QUARANTINE ->
                update_lot_qc_status lot st db
                = (inl INTERNAL_ERROR,
                   {| tables := t; journal := None; uuid4_next := uuid4_next db |}))
         /\ (forall item code qty,
                (0 <? qty) = true ->
                select_item item db <> None ->
                receive_inventory item code qty db
                = (inl INTERNAL_ERROR,
                   {| tables := t; journal := None;
                      uuid4_next := S (S (uuid4_next db)) |}))).
Proof.
  split.
  - intros rq J.
    destruct rq as [code name qc|item|item code qty|item|item qty|rid|lid st];
      cbn [handle answer fst snd].
    + rewrite create_item_eq. cbv zeta. destruct (existsb _ _); reflexivity.
    + rewrite get_item_endpoint_eq.
      destruct (select_item item db); cbn; unfold in_transaction; now rewrite J.
    + rewrite receive_inventory_eq, J.
      destruct (0 <? qty); [|cbn; unfold in_transaction; now rewrite J].
      destruct (select_item item db);
        [|cbn; unfold in_transaction; now rewrite J].
      cbv zeta. destruct (existsb _ _); reflexivity.
    + rewrite get_stock_summary_eq.
      destruct (select_item item db); cbn; unfold in_transaction; now rewrite J.
    + rewrite reserve_inventory_eq, J.
      destruct (0 <? qty); [|cbn; unfold in_transaction; now rewrite J].
      destruct (select_item item db); [|reflexivity].
      destruct (available _ <? qty); [reflexivity|].
      destruct (get_available_lots db item); reflexivity.
    + rewrite issue_inventory_eq, J.
      destruct (select_reservation rid db) as [r|]; [|reflexivity].
      destruct (negb _); [reflexivity|].
      destruct (get_available_lots db (res_item_id r)) as [|d ds] eqn:E;
        [reflexivity|].
      destruct (_ <? res_qty r); [reflexivity|].
      cbv zeta. destruct (is_nan (res_qty r)); reflexivity.
    + rewrite update_lot_qc_status_eq.
      destruct (QCStatus_eqb st QUARANTINE);
        [cbn; unfold in_transaction; now rewrite J|].
      rewrite J. destruct (select_lot lid db); reflexivity.
  - intros t J. repeat split.
    + intros rid. now rewrite issue_inventory_eq, J.
    + intros item qty Hq. now rewrite reserve_inventory_eq, Hq, J.
    + intros lot st Hst. rewrite update_lot_qc_status_eq, J.
      destruct st; try reflexivity. contradiction.
    + intros item code qty Hq Hit. rewrite receive_inventory_eq, Hq, J.
      destruct (select_item item db); [reflexivity|contradiction].
Qed.

(** X18, witness: after the QC decision on a lot that does not exist, the
    issue of a reservation answers [INTERNAL_ERROR]. *)
Lemma open_transaction_fails_next_request_witness :
  issue_inventory 3%nat (run (firstn 5 reissue_scenario) init_db)
  = (inl INTERNAL_ERROR,
     {| tables := tables (run (firstn 5 reissue_scenario) init_db);
        journal := None;
        uuid4_next := uuid4_next (run (firstn 5 reissue_scenario) init_db) |}).
Proof.
  apply (proj2 (open_transaction_fails_next_request
                  (run (firstn 5 reissue_scenario) init_db))
           (tables (run (firstn 5 reissue_scenario) init_db))).
  reflexivity.
Defined.

(** X19. A refused request writes nothing: in every state the handlers reach,
    whatever request is answered with an error leaves the four tables as
    they were. *)
Theorem refused_request_writes_nothing (rqs : list Request) (rq : Request)
    (e : ErrorCode) :
  fst (handle rq (run rqs init_db)) = inl e ->
  tables (snd (handle rq (run rqs init_db))) = tables (run rqs init_db).
Proof.
  pose proof (quiescent_run rqs init_db quiescent_init) as Hq.
  generalize dependent (run rqs init_db). intros db Hq.
  unfold quiescent in Hq.
  destruct rq as [code name qc|item|item code qty|item|item qty|rid|lid st];
    cbn [handle answer fst snd].
  - rewrite create_item_eq. cbv zeta.
    destruct (existsb _ _); [reflexivity|discriminate].
  - rewrite get_item_endpoint_eq. destruct (select_item item db); reflexivity.
  - rewrite receive_inventory_eq.
    destruct (0 <? qty); [|reflexivity].
    destruct (select_item item db); [|reflexivity].
    destruct (journal db) as [t|]; [intros _; now subst|].
    cbv zeta. destruct (existsb _ _); [reflexivity|discriminate].
  - rewrite get_stock_summary_eq. destruct (select_item item db); reflexivity.
  - rewrite reserve_inventory_eq.
    destruct (0 <? qty); [|reflexivity].
    destruct (journal db) as [t|]; [intros _; now subst|].
    destruct (select_item item db); [|reflexivity].
    destruct (available _ <? qty); [reflexivity|].
    destruct (get_available_lots db item); [reflexivity|discriminate].
  - rewrite issue_inventory_eq.
    destruct (journal db) as [t|]; [intros _; now subst|].
    destruct (select_reservation rid db) as [r|]; [|reflexivity].
    destruct (negb _); [reflexivity|].
    destruct (get_available_lots db (res_item_id r)) as [|d ds] eqn:E;
      [reflexivity|].
    destruct (_ <? res_qty r); [reflexivity|].
    cbv zeta. destruct (is_nan (res_qty r)); [reflexivity|discriminate].
  - rewrite update_lot_qc_status_eq.
    destruct (QCStatus_eqb st QUARANTINE); [reflexivity|].
    destruct (journal db) as [t|]; [intros _; now subst|].
    destruct (select_lot lid db); [discriminate|reflexivity].
Qed.

(** X19, witness: a reservation of 200 against 100 received. *)
Lemma refused_request_writes_nothing_witness :
  tables (snd (handle (ReserveInventory 0%nat 200)
                      (run (firstn 4 fifo_scenario) init_db)))
  = tables (run (firstn 4 fifo_scenario) init_db).
Proof.
  apply (refused_request_writes_nothing (firstn 4 fifo_scenario)
           (ReserveInventory 0%nat 200) INSUFFICIENT_STOCK).
  reflexivity.
Defined.

(** X20. Four codes of [ErrorCode] are never answered: no handler raises
    [INVALID_QTY] or [LOT_NOT_APPROVED], the [DATABASE_ERROR] branch of
    [receive_inventory] is not reached, and no exception escapes a handler
    uncaught. *)
Theorem unused_error_codes (rq : Request) (db : Database) :
  match fst (handle rq db) with
  | inl INVALID_QTY | inl LOT_NOT_APPROVED | inl DATABASE_ERROR
  | inl UNCAUGHT_EXCEPTION => False
  | _ => True
  end.
Proof.
  destruct rq as [code name qc|item|item code qty|item|item qty|rid|lid st];
    cbn [handle answer fst snd].
  - rewrite create_item_eq. cbv zeta. destruct (existsb _ _); exact I.
  - rewrite get_item_endpoint_eq. destruct (select_item item db); exact I.
  - rewrite receive_inventory_eq.
    destruct (0 <? qty); [|exact I].
    destruct (select_item item db); [|exact I].
    destruct (journal db) as [t|]; [exact I|].
    cbv zeta. destruct (existsb _ _); exact I.
  - rewrite get_stock_summary_eq. destruct (select_item item db); exact I.
  - rewrite reserve_inventory_eq.
    destruct (0 <? qty); [|exact I].
    destruct (journal db) as [t|]; [exact I|].
    destruct (select_item item db); [|exact I].
    destruct (available _ <? qty); [exact I|].
    destruct (get_available_lots db item); exact I.
  - rewrite issue_inventory_eq.
    destruct (journal db) as [t|]; [exact I|].
    destruct (select_reservation rid db) as [r|]; [|exact I].
    destruct (negb _); [exact I|].
    destruct (get_available_lots db (res_item_id r)) as [|d ds] eqn:E;
      [exact I|].
    destruct (_ <? res_qty r); [exact I|].
    cbv zeta. destruct (is_nan (res_qty r)); exact I.
  - rewrite update_lot_qc_status_eq.
    destruct (QCStatus_eqb st QUARANTINE); [exact I|].
    destruct (journal db) as [t|]; [exact I|].
    destruct (select_lot lid db); exact I.
Qed.

(** ** The summary after each write *)







(** Under unique identifiers a reservation is the row its identifier
    selects. *)
Lemma reservation_by_id rs :
  NoDup (map res_id rs) ->
  forall rid r x,
    find (fun y => Nat.eqb (res_id y) rid) rs = Some r ->
    In x rs -> res_id x = rid -> x = r.
Proof.
  induction rs as [|h rs IH]; intros Hnd rid r x Hf Hin Hid; [contradiction|].
  inversion Hnd as [|? ? Hh Hrest]; subst.
  cbn [find] in Hf. destruct (Nat.eqb (res_id h) (res_id x)) eqn:E.
  - injection Hf as <-. destruct Hin as [->|Hin]; [reflexivity|].
    apply Nat.eqb_eq in E. exfalso. apply Hh. rewrite E. now apply in_map.
  - destruct Hin as [->|Hin]; [now rewrite Nat.eqb_refl in E|].
    eapply IH; eauto.
Qed.



(** ** Lots drained one after the other *)












(** ** The trail of a reservation *)

Lemma tagged_rows_app t led1 led2 rid :
  tagged_rows t (led1 ++ led2) rid = tagged_rows t led1 rid ++ tagged_rows t led2 rid.
Proof. apply filter_app. Qed.

Lemma tagged_rows_issue_rows t item rid given :
  forall n x,
    tagged_rows t (issue_rows item rid n given) x
    = if TxnType_eqb ISSUE t && Nat.eqb rid x then issue_rows item rid n given else [].
Proof.
  unfold tagged_rows.
  induction given as [|il given IH]; intros n x.
  - simpl. now destruct (_ && _).
  - cbn [issue_rows filter txn_type led_reservation_id]. rewrite IH.
    now destruct (TxnType_eqb ISSUE t && Nat.eqb rid x).
Qed.

Lemma tagged_rows_unused t led n :
  Forall (fun e => forall rid, led_reservation_id e = Some rid -> (rid < n)%nat) led ->
  tagged_rows t led n = [].
Proof.
  unfold tagged_rows.
  induction 1 as [|e led He _ IH]; [reflexivity|]. cbn [filter]. rewrite IH.
  destruct (led_reservation_id e) as [x|] eqn:E; [|now rewrite andb_false_r].
  specialize (He x eq_refl).
  destruct (Nat.eqb x n) eqn:En; [apply Nat.eqb_eq in En; lia|].
  now rewrite andb_false_r.
Qed.

Lemma reservations_used_weaken (n m : nat) (led : list ledger_row) :
  (n <= m)%nat ->
  Forall (fun e => forall rid, led_reservation_id e = Some rid -> (rid < n)%nat) led ->
  Forall (fun e => forall rid, led_reservation_id e = Some rid -> (rid < m)%nat) led.
Proof.
  intros Hnm. apply Forall_impl. intros e He rid Hr. specialize (He rid Hr). lia.
Qed.

Lemma issue_rows_reservation_used item rid given :
  forall n m,
    (rid < m)%nat ->
    Forall (fun e => forall x, led_reservation_id e = Some x -> (x < m)%nat)
           (issue_rows item rid n given).
Proof.
  induction given as [|il given IH]; intros n m H; simpl; constructor.
  - simpl. intros x [= <-]. exact H.
  - now apply IH.
Qed.

Lemma issue_rows_nonempty item rid n given :
  given <> [] -> issue_rows item rid n given <> [].
Proof. destruct given; [contradiction|discriminate]. Qed.

Lemma trail_ok_init : trail_ok init_db.
Proof. constructor; constructor. Qed.

Lemma tagged_rows_one t e rid :
  tagged_rows t [e] rid
  = if TxnType_eqb (txn_type e) t
       && match led_reservation_id e with
          | Some x => Nat.eqb x rid
          | None => false
          end
    then [e] else [].
Proof. reflexivity. Qed.

Ltac trail_rows :=
  unfold trail;
  rewrite ?tagged_rows_app, ?tagged_rows_issue_rows, ?tagged_rows_one;
  cbn [led_reservation_id txn_type led_qty TxnType_eqb andb];
  rewrite ?andb_false_r, ?app_nil_r.

Lemma trail_ok_effect db db' rq :
  consistent db -> trail_ok db -> effect db db' rq -> trail_ok db'.
Proof.
  intros [[Ki Kl Kr Kg Ni Nl Nr Ci Cl] Hb] [Tu Tt] Heff.
  destruct Heff as
    [rq Et En
    |row Hcode Hid Et En
    |it lot Hit Hq Hcode Hid Hst Et En
    |it r Hit Hq Hav Hne Hid Hst Et En
    |rid r Hsel Hst Hne Hle Hnan Et En
    |lid st l Hsel Hst Et En].
  - constructor; after_effect Et; [|assumption].
    eapply reservations_used_weaken; [|exact Tu]; lia.
  - constructor; after_effect Et; rewrite ?En; [|assumption].
    eapply reservations_used_weaken; [|exact Tu]; lia.
  - (* receive *)
    constructor; after_effect Et; rewrite ?En.
    + apply Forall_app. split; [eapply reservations_used_weaken; [|exact Tu]; lia|].
      constructor; [|constructor]. simpl. discriminate.
    + revert Tt. apply Forall_impl. intros x Hx. trail_rows. exact Hx.
  - (* reserve *)
    constructor; after_effect Et; rewrite ?En.
    + apply Forall_app. split; [eapply reservations_used_weaken; [|exact Tu]; lia|].
      constructor; [|constructor]. simpl. intros x [= <-]. lia.
    + apply Forall_app. split.
      * apply Forall_forall. intros x Hx.
        rewrite Forall_forall in Tt, Kr. specialize (Tt x Hx). specialize (Kr x Hx).
        trail_rows. rewrite Hid.
        destruct (Nat.eqb (uuid4_next db) (res_id x)) eqn:E;
          [apply Nat.eqb_eq in E; lia|].
        rewrite ?app_nil_r. exact Tt.
      * constructor; [|constructor]. trail_rows.
        rewrite Hid, !(tagged_rows_unused _ _ _ Tu), Nat.eqb_refl, Hst.
        cbn. repeat split.
  - (* issue *)
    unfold select_reservation in Hsel.
    destruct (find_some _ _ Hsel) as [Hrin Hrid]. apply Nat.eqb_eq in Hrid.
    assert (Hlt : (rid < uuid4_next db)%nat)
      by (rewrite Forall_forall in Kr; specialize (Kr r Hrin); lia).
    assert (Hpos : (0 <? res_qty r) = true).
    { pose proof (reservations_positive _ Hb) as Hp.
      rewrite Forall_forall in Hp. apply Hp, Hrin. }
    constructor; after_effect Et; rewrite ?En.
    + apply Forall_app. split; [eapply reservations_used_weaken; [|exact Tu]; lia|].
      apply Forall_app. split; [apply issue_rows_reservation_used; lia|].
      constructor; [|constructor]. simpl. intros x [= <-]. lia.
    + apply Forall_forall. intros x Hx. apply in_map_iff in Hx.
      destruct Hx as (y & <- & Hy).
      rewrite Forall_forall in Tt. pose proof (Tt y Hy) as Ty.
      assert (Eid : res_id (close_reservation rid y) = res_id y)
        by (unfold close_reservation; now destruct (Nat.eqb (res_id y) rid)).
      unfold trail. rewrite Eid. trail_rows.
      unfold close_reservation.
      destruct (Nat.eqb (res_id y) rid) eqn:E.
      * apply Nat.eqb_eq in E.
        assert (y = r)
          by (apply (reservation_by_id _ Nr rid r y Hsel Hy E)).
        subst y. unfold trail in Ty. rewrite Hst in Ty.
        cbn [ReservationStatus_eqb] in Ty.
        destruct Ty as (T1 & T2 & T3 & T4).
        cbn [res_status res_qty set_res_status ReservationStatus_eqb].
        rewrite T1, T2, T3, T4, <- E, Nat.eqb_refl. cbn.
        repeat split.
        apply issue_rows_nonempty.
        destruct (get_available_lots db (res_item_id r)) as [|d ds];
          [contradiction|].
        apply allocate_nonempty, positive_not_le_0, Hpos.
      * assert (E' : Nat.eqb rid (res_id y) = false)
          by (rewrite Nat.eqb_sym; exact E).
        rewrite E'. rewrite ?andb_false_r, ?app_nil_r. exact Ty.
  - constructor; after_effect Et; rewrite ?En; assumption.
Qed.

Lemma trail_ok_run rqs : trail_ok (run rqs init_db).
Proof.
  assert (H : consistent (run rqs init_db) /\ trail_ok (run rqs init_db)).
  { apply (invariant_run (fun db => consistent db /\ trail_ok db)).
    - intros db db' rq [Hc Ht] He. split.
      + eapply consistent_effect; eassumption.
      + eapply trail_ok_effect; eassumption.
    - exact quiescent_init.
    - split; [split; [exact keys_ok_init|exact books_ok_init]|exact trail_ok_init]. }
  apply H.
Qed.

(** X14. Every reservation leaves its trail in the ledger: in every state
    the handlers reach, exactly one [RESERVE] row carries the tag of a
    reservation, for its quantity; while the reservation is [OPEN] no [ISSUE]
    or [UNRESERVE] row carries its tag; once it is [ISSUED] there are [ISSUE]
    rows with its tag, each for a positive quantity, and exactly one
    [UNRESERVE] row, for its quantity. *)
Theorem reservation_has_ledger_trail (rqs : list Request) (r : reservation_row) :
  let led := inventory_ledger (run rqs init_db) in
  In r (reservations (run rqs init_db)) ->
  map led_qty (tagged_rows RESERVE led (res_id r)) = [res_qty r]
  /\ (res_status r = OPEN ->
      tagged_rows ISSUE led (res_id r) = []
      /\ tagged_rows UNRESERVE led (res_id r) = [])
  /\ (res_status r = ISSUED ->
      tagged_rows ISSUE led (res_id r) <> []
      /\ Forall (fun e => (0 <? led_qty e) = true) (tagged_rows ISSUE led (res_id r))
      /\ map led_qty (tagged_rows UNRESERVE led (res_id r)) = [res_qty r]).
Proof.
  cbv zeta. intros Hr. destruct (trail_ok_run rqs) as [_ Ht].
  rewrite Forall_forall in Ht. destruct (Ht r Hr) as (H1 & _ & H3).
  split; [exact H1|]. split; intros Hs; rewrite Hs in H3; cbn in H3.
  - tauto.
  - destruct H3 as [H3 H4]. split; [exact H4|]. split; [|exact H3].
    destruct (consistent_run rqs) as [_ Hb].
    pose proof (ledger_positive _ Hb) as Hp.
    apply Forall_forall. intros e He. apply filter_In in He.
    rewrite Forall_forall in Hp. apply Hp, He.
Qed.

(** X14, witness: the reservation of 80 of the FIFO scenario, issued from
    three lots. *)
Lemma reservation_has_ledger_trail_witness :
  map led_qty (tagged_rows UNRESERVE (inventory_ledger (run fifo_scenario init_db)) 7%nat)
  = [80].
Proof.
  refine (proj2 (proj2 (proj2 (proj2 (reservation_has_ledger_trail fifo_scenario
            {| res_id := 7%nat; res_item_id := 0%nat; res_qty := 80;
               res_status := ISSUED |} _)) eq_refl))).
  vm_compute. now left.
Defined.
